(** * The hub resolver of Tekton Pipelines

    A shallow embedding of [pkg/resolution/resolver/hub/resolver.go] and
    the properties its specification states about it.

    The development has four parts:
    - the pieces of the Go runtime the resolver relies on: error values,
      the effects of a call (one HTTP request, reading and closing the
      response body) and [encoding/json];
    - the package [hub] itself: [ValidateParams], [Resolve] and
      [ResolvedHubResource];
    - the vocabulary of the specification: error kinds, the collapsing
      of a parameter list, effective values;
    - the theorems. *)

From Stdlib Require Import String Ascii List NArith ZArith Lia Bool.
From stdpp Require Import base option list strings gmap.

Set Warnings "-register-all".

Local Open Scope string_scope.
Local Open Scope list_scope.
Local Open Scope Z_scope.

(* ===================================================================== *)
(** * Go values *)
(* ===================================================================== *)

(** Go's [error] values as the resolver builds and receives them.
    [errors.New] and [fmt.Errorf] without [%w] give an [errorString];
    [fmt.Errorf] with [%w] gives a [wrapError] that keeps the cause.
    [SyntaxError] and [UnmarshalTypeError] are the two errors of
    [encoding/json] that decoding into a struct can return; of the
    latter only the field [Value] (the JSON kind found) is kept. *)
Inductive error :=
| errorString (s : string)
| wrapError (msg : string) (err : error)
| SyntaxError
| UnmarshalTypeError (Value : string).

(** [errors.Unwrap]. *)
Definition Unwrap (e : error) : option error :=
  match e with
  | wrapError _ err => Some err
  | _ => None
  end.

(** A call that returns [(T, error)]. *)
Inductive result (A : Type) :=
| Ok (a : A)
| Err (e : error).
Arguments Ok {A} a.
Arguments Err {A} e.

(** [[]byte(s)] and [string(b)]. *)
Definition bytes_of_string (s : string) : list Byte.byte := list_byte_of_string s.
Definition string_of_bytes (b : list Byte.byte) : string := string_of_list_byte b.

(** What the Go libraries do that this development does not spell out:
    [fmt.Sprintf] on string operands, and the text [Error()] gives for
    the two errors of [encoding/json]. *)
Class GoLib := {
  Sprintf : string → list string → string;
  json_Error : error → string
}.

(** [err.Error()]. *)
Definition Error `{GoLib} (e : error) : string :=
  match e with
  | errorString s => s
  | wrapError msg _ => msg
  | SyntaxError => json_Error SyntaxError
  | UnmarshalTypeError v => json_Error (UnmarshalTypeError v)
  end.

(** [fmt.Errorf(prefix + "%w", err)]. *)
Definition Errorf_w `{GoLib} (prefix : string) (err : error) : error :=
  wrapError (prefix +:+ Error err) err.

(* ===================================================================== *)
(** * Effects of a call *)
(* ===================================================================== *)

(** The observable actions of [Resolve], in the order they happen. *)
Inductive event :=
| EvGet (url : string)      (* http.Get(url) *)
| EvReadAll                 (* io.ReadAll(resp.Body) *)
| EvClose.                  (* resp.Body.Close() *)

(** A computation: the actions performed and the outcome. *)
Definition M (A : Type) : Type := (list event * result A)%type.

Definition ret {A} (a : A) : M A := ([], Ok a).
Definition fail {A} (e : error) : M A := ([], Err e).
Definition emit (ev : event) : M unit := ([ev], Ok tt).

Definition bind {A B} (m : M A) (k : A → M B) : M B :=
  match m with
  | (t, Ok a) => let '(t', r) := k a in (t ++ t', r)
  | (t, Err e) => (t, Err e)
  end.

(** [defer d; rest]: [d] runs when the function returns, whatever [rest]
    returns, and its own outcome is dropped. *)
Definition defer {A} (d : M unit) (rest : M A) : M A :=
  let '(t, r) := rest in (t ++ fst d, r).

(** [v, err := call; if err != nil { return nil, f(err) }]. *)
Definition on_error {A} (m : M A) (f : error → error) : M A :=
  match m with
  | (t, Ok a) => (t, Ok a)
  | (t, Err e) => (t, Err (f e))
  end.

Declare Scope go_scope.
Delimit Scope go_scope with go.
Notation "x <- c ;; k" := (bind c (fun x => k))
  (at level 100, c at next level, right associativity) : go_scope.
Notation "c ;;; k" := (bind c (fun _ => k))
  (at level 100, right associativity) : go_scope.

Definition trace {A} (m : M A) : list event := fst m.
Definition outcome {A} (m : M A) : result A := snd m.

(** [net/http]: a response and its body stream.  [content] is what the
    stream delivers; [read_err] is the error reading runs into, if any. *)
Record ReadCloser := {
  content : list Byte.byte;
  read_err : option error
}.

Record Response := {
  StatusCode : Z;
  Body : ReadCloser
}.

Definition StatusOK : Z := 200.

(** The network: what [http.Get] answers for a URL. *)
Record Network := {
  answer : string → result Response
}.

Definition http_Get (net : Network) (url : string) : M Response :=
  (emit (EvGet url) ;;;
   match answer net url with
   | Ok resp => ret resp
   | Err e => fail e
   end)%go.

Definition io_ReadAll (b : ReadCloser) : M (list Byte.byte) :=
  (emit EvReadAll ;;;
   match read_err b with
   | None => ret (content b)
   | Some e => fail e
   end)%go.

Definition Close (b : ReadCloser) : M unit := emit EvClose.

(* ===================================================================== *)
(** * encoding/json *)
(* ===================================================================== *)

(** [json.Unmarshal] first checks that the whole input is one JSON value
    ([checkValid], driven by the state machine of [scanner.go]) and then
    stores the value into the target.  The scanner below is that state
    machine, one [state...] function per function of [scanner.go]; it
    also builds the value it reads, so that storing works on a [Value]
    instead of on the bytes a second time. *)
Module json.

Local Open Scope char_scope.
Local Open Scope N_scope.
Local Infix "=c" := Ascii.eqb (at level 70, no associativity).

Inductive Value :=
| Null
| Bool (b : bool)
| Number (lit : string)
| Str (s : string)
| Array (elems : list Value)
| Object (members : list (string * Value)).

Definition quote : ascii := "034".
Definition code (c : ascii) : N := N_of_ascii c.

Definition isSpace (c : ascii) : bool :=
  (c =c " ") || (c =c "009") || (c =c "013") || (c =c "010").

Definition isDigit (c : ascii) : bool := (48 <=? code c) && (code c <=? 57).
Definition isDigit19 (c : ascii) : bool := (49 <=? code c) && (code c <=? 57).

(** One hexadecimal digit, as [getu4] reads it. *)
Definition hexval (c : ascii) : option N :=
  let n := code c in
  if (48 <=? n) && (n <=? 57) then Some (n - 48)
  else if (97 <=? n) && (n <=? 102) then Some (n - 97 + 10)
  else if (65 <=? n) && (n <=? 70) then Some (n - 65 + 10)
  else None.

Definition isHex (c : ascii) : bool :=
  match hexval c with Some _ => true | None => false end.

(** [getu4] on the four digits that follow [\u]. *)
Definition getu4 (h1 h2 h3 h4 : ascii) : option N :=
  match hexval h1, hexval h2, hexval h3, hexval h4 with
  | Some a, Some b, Some c, Some d => Some (((a * 16 + b) * 16 + c) * 16 + d)
  | _, _, _, _ => None
  end.

(** [unicode/utf16] and [unicode/utf8]. *)
Definition ReplacementChar : N := 65533.

Definition IsSurrogate (r : N) : bool := (55296 <=? r) && (r <? 57344).

Definition utf16_DecodeRune (r1 r2 : N) : N :=
  if (55296 <=? r1) && (r1 <? 56320) && (56320 <=? r2) && (r2 <? 57344)
  then (N.shiftl (r1 - 55296) 10 + (r2 - 56320)) + 65536
  else ReplacementChar.

Definition byte_of (n : N) : ascii := ascii_of_N n.

Definition EncodeRune (r : N) : list ascii :=
  if r <? 128 then [byte_of r]
  else if r <? 2048 then
    [byte_of (192 + N.shiftr r 6); byte_of (128 + N.land r 63)]
  else if IsSurrogate r || (1114111 <? r) then
    [byte_of 239; byte_of 191; byte_of 189]
  else if r <? 65536 then
    [byte_of (224 + N.shiftr r 12);
     byte_of (128 + N.land (N.shiftr r 6) 63);
     byte_of (128 + N.land r 63)]
  else
    [byte_of (240 + N.shiftr r 18);
     byte_of (128 + N.land (N.shiftr r 12) 63);
     byte_of (128 + N.land (N.shiftr r 6) 63);
     byte_of (128 + N.land r 63)].

Definition between (lo hi : N) (c : ascii) : bool :=
  (lo <=? code c) && (code c <=? hi).

(** The well-formed multi-byte sequences that [utf8.DecodeRune]
    accepts, by length. *)
Definition utf8_seq2 (c1 c2 : ascii) : bool :=
  between 194 223 c1 && between 128 191 c2.

Definition utf8_seq3 (c1 c2 c3 : ascii) : bool :=
  ((c1 =c byte_of 224) && between 160 191 c2
   || between 225 236 c1 && between 128 191 c2
   || (c1 =c byte_of 237) && between 128 159 c2
   || between 238 239 c1 && between 128 191 c2)
  && between 128 191 c3.

Definition utf8_seq4 (c1 c2 c3 c4 : ascii) : bool :=
  ((c1 =c byte_of 240) && between 144 191 c2
   || between 241 243 c1 && between 128 191 c2
   || (c1 =c byte_of 244) && between 128 143 c2)
  && between 128 191 c3 && between 128 191 c4.

(** The escapes of one character after a backslash. *)
Definition simple_escape (e : ascii) : option ascii :=
  if (e =c quote) || (e =c "\") || (e =c "/") || (e =c "'") then Some e
  else if e =c "b" then Some "008"
  else if e =c "f" then Some "012"
  else if e =c "n" then Some "010"
  else if e =c "r" then Some "013"
  else if e =c "t" then Some "009"
  else None.

(** The low half of a surrogate pair, when the six bytes after a high
    half spell one. *)
Definition low_half (rr : N) (b1 b2 g1 g2 g3 g4 : ascii) : option N :=
  if (b1 =c "\") && (b2 =c "u") then
    match getu4 g1 g2 g3 g4 with
    | Some rr1 =>
        let dec := utf16_DecodeRune rr rr1 in
        if N.eqb dec ReplacementChar then None else Some dec
    | None => None
    end
  else None.

(** [unquoteBytes] on the bytes between the two quotes of a string
    literal: escapes are replaced, ill-formed UTF-8 is replaced byte by
    byte with U+FFFD.  [None] is Go's [ok == false]. *)
Fixpoint unquote (s : list ascii) : option (list ascii) :=
  match s with
  | [] => Some []
  | c :: r =>
    if c =c "\" then
      match r with
      | [] => None
      | e :: r1 =>
        match simple_escape e with
        | Some b => option_map (cons b) (unquote r1)
        | None =>
          if e =c "u" then
            match r1 with
            | h1 :: h2 :: h3 :: h4 :: r2 =>
              match getu4 h1 h2 h3 h4 with
              | None => None
              | Some rr =>
                if IsSurrogate rr then
                  match r2 with
                  | b1 :: b2 :: g1 :: g2 :: g3 :: g4 :: r3 =>
                    match low_half rr b1 b2 g1 g2 g3 g4 with
                    | Some dec => option_map (app (EncodeRune dec)) (unquote r3)
                    | None =>
                      option_map (app (EncodeRune ReplacementChar)) (unquote r2)
                    end
                  | _ => option_map (app (EncodeRune ReplacementChar)) (unquote r2)
                  end
                else option_map (app (EncodeRune rr)) (unquote r2)
              end
            | _ => None
            end
          else None
        end
      end
    else if (c =c quote) || (code c <? 32) then None
    else if code c <? 128 then option_map (cons c) (unquote r)
    else
      let bad := option_map (app (EncodeRune ReplacementChar)) (unquote r) in
      match r with
      | c2 :: r2 =>
        if utf8_seq2 c c2 then
          option_map (fun t => c :: c2 :: t) (unquote r2)
        else
          match r2 with
          | c3 :: r3 =>
            if utf8_seq3 c c2 c3 then
              option_map (fun t => c :: c2 :: c3 :: t) (unquote r3)
            else
              match r3 with
              | c4 :: r4 =>
                if utf8_seq4 c c2 c3 c4 then
                  option_map (fun t => c :: c2 :: c3 :: c4 :: t) (unquote r4)
                else bad
              | [] => bad
              end
          | [] => bad
          end
      | [] => bad
      end
  end.

(** The entries of [scanner.parseState], each with what has been read of
    the object or array it stands for (newest first). *)
Inductive frame :=
| parseObjectKey (members : list (string * Value))
| parseObjectValue (members : list (string * Value)) (key : string)
| parseArrayValue (elems : list Value).

(** The values of [scanner.step].  The states inside a string or a
    number carry the bytes read so far (newest first); [atEndValue] and
    [atEndTop] carry the value just completed.  [atLiteral rest v]
    stands for the states [stateT], [stateTr], ... [stateNul]: [rest] is
    what is still to come of the literal and [v] its value. *)
Inductive stepState :=
| atBeginValueOrEmpty
| atBeginValue
| atBeginStringOrEmpty
| atBeginString
| atEndValue (v : Value)
| atEndTop (v : Value)
| atInString (raw : list ascii)
| atInStringEsc (raw : list ascii)
| atInStringEscU (seen : nat) (raw : list ascii)
| atNeg (lit : list ascii)
| at1 (lit : list ascii)
| at0 (lit : list ascii)
| atDot (lit : list ascii)
| atDot0 (lit : list ascii)
| atE (lit : list ascii)
| atESign (lit : list ascii)
| atE0 (lit : list ascii)
| atLiteral (rest : list ascii) (v : Value).

Record scanner := {
  step : stepState;
  parseState : list frame
}.

Definition maxNestingDepth : N := 10000.

(** The transitions return [None] where [scanner.go] calls [s.error]. *)
Definition pushParseState (ps : list frame) (f : frame) (successState : stepState)
  : option scanner :=
  if N.of_nat (length (f :: ps)) <=? maxNestingDepth
  then Some {| step := successState; parseState := f :: ps |}
  else None.

(** [popParseState], with the value [v] of the container just closed. *)
Definition popParseState (v : Value) (ps : list frame) : scanner :=
  match ps with
  | [] => {| step := atEndTop v; parseState := [] |}
  | _ :: _ => {| step := atEndValue v; parseState := ps |}
  end.

Definition number_of (lit : list ascii) : Value :=
  Number (string_of_list_ascii (rev lit)).

Definition stateEndTop (v : Value) (ps : list frame) (c : ascii) : option scanner :=
  if isSpace c then Some {| step := atEndTop v; parseState := ps |} else None.

Definition stateEndValue (v : Value) (ps : list frame) (c : ascii) : option scanner :=
  match ps with
  | [] => stateEndTop v ps c
  | f :: ps' =>
    if isSpace c then Some {| step := atEndValue v; parseState := ps |}
    else
      match f with
      | parseObjectKey ms =>
        if c =c ":" then
          match v with
          | Str k => Some {| step := atBeginValue;
                             parseState := parseObjectValue ms k :: ps' |}
          | _ => None
          end
        else None
      | parseObjectValue ms k =>
        if c =c "," then
          Some {| step := atBeginString;
                  parseState := parseObjectKey ((k, v) :: ms) :: ps' |}
        else if c =c "}" then
          Some (popParseState (Object (rev ((k, v) :: ms))) ps')
        else None
      | parseArrayValue es =>
        if c =c "," then
          Some {| step := atBeginValue;
                  parseState := parseArrayValue (v :: es) :: ps' |}
        else if c =c "]" then
          Some (popParseState (Array (rev (v :: es))) ps')
        else None
      end
  end.

Definition stateBeginValue (ps : list frame) (c : ascii) : option scanner :=
  if isSpace c then Some {| step := atBeginValue; parseState := ps |}
  else if c =c "{" then pushParseState ps (parseObjectKey []) atBeginStringOrEmpty
  else if c =c "[" then pushParseState ps (parseArrayValue []) atBeginValueOrEmpty
  else if c =c quote then Some {| step := atInString []; parseState := ps |}
  else if c =c "-" then Some {| step := atNeg [c]; parseState := ps |}
  else if c =c "0" then Some {| step := at0 [c]; parseState := ps |}
  else if c =c "t" then
    Some {| step := atLiteral ["r"; "u"; "e"] (Bool true); parseState := ps |}
  else if c =c "f" then
    Some {| step := atLiteral ["a"; "l"; "s"; "e"] (Bool false); parseState := ps |}
  else if c =c "n" then
    Some {| step := atLiteral ["u"; "l"; "l"] Null; parseState := ps |}
  else if isDigit19 c then Some {| step := at1 [c]; parseState := ps |}
  else None.

Definition stateBeginValueOrEmpty (ps : list frame) (c : ascii) : option scanner :=
  if isSpace c then Some {| step := atBeginValueOrEmpty; parseState := ps |}
  else if c =c "]" then
    match ps with
    | parseArrayValue es :: ps' => Some (popParseState (Array (rev es)) ps')
    | _ => None
    end
  else stateBeginValue ps c.

Definition stateBeginString (ps : list frame) (c : ascii) : option scanner :=
  if isSpace c then Some {| step := atBeginString; parseState := ps |}
  else if c =c quote then Some {| step := atInString []; parseState := ps |}
  else None.

Definition stateBeginStringOrEmpty (ps : list frame) (c : ascii) : option scanner :=
  if isSpace c then Some {| step := atBeginStringOrEmpty; parseState := ps |}
  else if c =c "}" then
    match ps with
    | parseObjectKey ms :: ps' => Some (popParseState (Object (rev ms)) ps')
    | _ => None
    end
  else stateBeginString ps c.

Definition stateInString (raw : list ascii) (ps : list frame) (c : ascii)
  : option scanner :=
  if c =c quote then
    match unquote (rev raw) with
    | Some t => Some {| step := atEndValue (Str (string_of_list_ascii t));
                        parseState := ps |}
    | None => None
    end
  else if c =c "\" then Some {| step := atInStringEsc (c :: raw); parseState := ps |}
  else if code c <? 32 then None
  else Some {| step := atInString (c :: raw); parseState := ps |}.

Definition stateInStringEsc (raw : list ascii) (ps : list frame) (c : ascii)
  : option scanner :=
  if (c =c "b") || (c =c "f") || (c =c "n") || (c =c "r") || (c =c "t")
     || (c =c "\") || (c =c "/") || (c =c quote)
  then Some {| step := atInString (c :: raw); parseState := ps |}
  else if c =c "u" then Some {| step := atInStringEscU 0 (c :: raw); parseState := ps |}
  else None.

(** [stateInStringEscU], [...U1], [...U12], [...U123]: [seen] hex digits
    have been read. *)
Definition stateInStringEscU (seen : nat) (raw : list ascii) (ps : list frame)
  (c : ascii) : option scanner :=
  if isHex c then
    if (seen <? 3)%nat
    then Some {| step := atInStringEscU (S seen) (c :: raw); parseState := ps |}
    else Some {| step := atInString (c :: raw); parseState := ps |}
  else None.

Definition state0 (lit : list ascii) (ps : list frame) (c : ascii) : option scanner :=
  if c =c "." then Some {| step := atDot (c :: lit); parseState := ps |}
  else if (c =c "e") || (c =c "E") then Some {| step := atE (c :: lit); parseState := ps |}
  else stateEndValue (number_of lit) ps c.

Definition state1 (lit : list ascii) (ps : list frame) (c : ascii) : option scanner :=
  if isDigit c then Some {| step := at1 (c :: lit); parseState := ps |}
  else state0 lit ps c.

Definition stateNeg (lit : list ascii) (ps : list frame) (c : ascii) : option scanner :=
  if c =c "0" then Some {| step := at0 (c :: lit); parseState := ps |}
  else if isDigit19 c then Some {| step := at1 (c :: lit); parseState := ps |}
  else None.

Definition stateDot (lit : list ascii) (ps : list frame) (c : ascii) : option scanner :=
  if isDigit c then Some {| step := atDot0 (c :: lit); parseState := ps |} else None.

Definition stateDot0 (lit : list ascii) (ps : list frame) (c : ascii) : option scanner :=
  if isDigit c then Some {| step := atDot0 (c :: lit); parseState := ps |}
  else if (c =c "e") || (c =c "E") then Some {| step := atE (c :: lit); parseState := ps |}
  else stateEndValue (number_of lit) ps c.

Definition stateESign (lit : list ascii) (ps : list frame) (c : ascii) : option scanner :=
  if isDigit c then Some {| step := atE0 (c :: lit); parseState := ps |} else None.

Definition stateE (lit : list ascii) (ps : list frame) (c : ascii) : option scanner :=
  if (c =c "+") || (c =c "-") then Some {| step := atESign (c :: lit); parseState := ps |}
  else stateESign lit ps c.

Definition stateE0 (lit : list ascii) (ps : list frame) (c : ascii) : option scanner :=
  if isDigit c then Some {| step := atE0 (c :: lit); parseState := ps |}
  else stateEndValue (number_of lit) ps c.

Definition stateLiteral (rest : list ascii) (v : Value) (ps : list frame) (c : ascii)
  : option scanner :=
  match rest with
  | [] => None
  | x :: rest' =>
    if c =c x then
      match rest' with
      | [] => Some {| step := atEndValue v; parseState := ps |}
      | _ :: _ => Some {| step := atLiteral rest' v; parseState := ps |}
      end
    else None
  end.

(** [s.step(s, c)]. *)
Definition scan_step (s : scanner) (c : ascii) : option scanner :=
  let ps := parseState s in
  match step s with
  | atBeginValueOrEmpty => stateBeginValueOrEmpty ps c
  | atBeginValue => stateBeginValue ps c
  | atBeginStringOrEmpty => stateBeginStringOrEmpty ps c
  | atBeginString => stateBeginString ps c
  | atEndValue v => stateEndValue v ps c
  | atEndTop v => stateEndTop v ps c
  | atInString raw => stateInString raw ps c
  | atInStringEsc raw => stateInStringEsc raw ps c
  | atInStringEscU n raw => stateInStringEscU n raw ps c
  | atNeg lit => stateNeg lit ps c
  | at1 lit => state1 lit ps c
  | at0 lit => state0 lit ps c
  | atDot lit => stateDot lit ps c
  | atDot0 lit => stateDot0 lit ps c
  | atE lit => stateE lit ps c
  | atESign lit => stateESign lit ps c
  | atE0 lit => stateE0 lit ps c
  | atLiteral rest v => stateLiteral rest v ps c
  end.

(** The loop of [checkValid]. *)
Fixpoint scan_all (s : scanner) (data : list ascii) : option scanner :=
  match data with
  | [] => Some s
  | c :: data' =>
    match scan_step s c with
    | Some s' => scan_all s' data'
    | None => None
    end
  end.

(** [scanner.eof]: the input is one value if the scanner is past a
    top-level value, or gets there when fed a space. *)
Definition eof (s : scanner) : option Value :=
  match step s with
  | atEndTop v => Some v
  | _ =>
    match scan_step s " "%char with
    | Some s' =>
      match step s' with
      | atEndTop v => Some v
      | _ => None
      end
    | None => None
    end
  end.

Definition reset : scanner := {| step := atBeginValue; parseState := [] |}.

(** The value a byte sequence spells, [None] where [checkValid] returns
    a [SyntaxError]. *)
Definition parse (data : list Byte.byte) : option Value :=
  match scan_all reset (list_ascii_of_string (string_of_bytes data)) with
  | Some s => eof s
  | None => None
  end.

(** ** Storing a value *)

(** ASCII case folding, as taken by [equalFold] for a field name made of
    letters other than k and s. *)
Definition fold_byte (c : ascii) : ascii :=
  if (97 <=? code c) && (code c <=? 122) then byte_of (code c - 32) else c.

Fixpoint equalFold (name key : string) : bool :=
  match name, key with
  | EmptyString, EmptyString => true
  | String a name', String b key' => (fold_byte a =c fold_byte b) && equalFold name' key'
  | _, _ => false
  end.

Arguments equalFold : simpl never.

(** What [UnmarshalTypeError.Value] says of a value that does not fit. *)
Definition kind_name (v : Value) : string :=
  match v with
  | Null => "null"
  | Bool _ => "bool"
  | Number _ => "number"
  | Str _ => "string"
  | Array _ => "array"
  | Object _ => "object"
  end.

(** [d.saveError]: the first error is kept. *)
Definition saveError (saved : option error) (e : error) : option error :=
  match saved with
  | Some e0 => Some e0
  | None => Some e
  end.

(** Storing into a target of kind string ([literalStore], [d.array],
    [d.object]): a string is stored, [null] leaves the target as it is,
    anything else is a type error and leaves the target as it is. *)
Definition store_string (v : Value) (cur : string) (saved : option error)
  : string * option error :=
  match v with
  | Str s => (s, saved)
  | Null => (cur, saved)
  | _ => (cur, saveError saved (UnmarshalTypeError (kind_name v)))
  end.

End json.

(* ===================================================================== *)
(** * Package hub: what resolver.go takes from the rest of the repository *)
(* ===================================================================== *)

(** Modelled from the spec: the parameter names [ParamName],
    [ParamVersion], [ParamKind] and [ParamCatalog] are constants of the
    package declared outside resolver.go; the specification gives the
    recognized names as name, version, kind and catalog. *)
Definition ParamName : string := "name".
Definition ParamVersion : string := "version".
Definition ParamKind : string := "kind".
Definition ParamCatalog : string := "catalog".

(** The keys [ConfigCatalog] and [ConfigKind] of the installation
    configuration are constants of the package declared outside
    resolver.go as well; the specification does not give their text, so
    they are taken as they come. *)
Class ConfigKeys := {
  ConfigCatalog : string;
  ConfigKind : string
}.

(** Modelled from the spec: a request parameter is a name with a
    string-or-typed value ([pipelinev1beta1.Param], [ParamValue]);
    resolver.go reads [Name], [Value] and [Value.StringVal] only. *)
Record ParamValue := {
  StringVal : string;
  ArrayVal : list string;
  ObjectVal : gmap string string
}.

Record Param := {
  Name : string;
  Value : ParamValue
}.

(** Modelled from the spec: the ambient context carries the feature
    flags ([resolverconfig.FromContextOrDefaults]) and the installation
    configuration of the resolver
    ([framework.GetResolverConfigFromContext]), a mapping from key to
    string. *)
Record FeatureFlags := {
  EnableHubResolver : bool
}.

Record Config := {
  Flags : FeatureFlags
}.

Record Context := {
  FromContextOrDefaults : Config;
  GetResolverConfigFromContext : gmap string string
}.

(** Modelled from the spec: the source record of a resolved resource
    ([pipelinev1beta1.ConfigSource]) holds a URL, a digest and an entry
    point. *)
Record ConfigSource := {
  URI : string;
  Digest : gmap string string;
  EntryPoint : string
}.

(** [framework.ResolvedResource]: the three operations the host calls on
    what [Resolve] returns.  A [nil] map and a [nil] pointer are [None]. *)
Class ResolvedResource (T : Type) := {
  Data : T → list Byte.byte;
  Annotations : T → option (gmap string string);
  Source : T → option ConfigSource
}.

(* ===================================================================== *)
(** * Package hub: resolver.go *)
(* ===================================================================== *)

Definition LabelValueHubResolverType : string := "hub".

Definition disabledError : string :=
  "cannot handle resolution request, enable-hub-resolver feature flag not true".

(** The texts of the other errors of resolver.go. *)
Definition msgNameParam : string := "must include name param".
Definition msgVersionParam : string := "must include version param".
Definition msgKindParam : string := "kind param must be task or pipeline".
Definition msgDefaultCatalog : string :=
  "default catalog was not set during installation of the hub resolver".
Definition msgDefaultKind : string :=
  "default resource Kind was not set during installation of the hub resolver".
(** [fmt.Sprintf("requested resource '%s' not found on hub", url)]. *)
Definition msgNotFound (url : string) : string :=
  "requested resource '" +:+ url +:+ "' not found on hub".

Record Resolver := {
  HubURL : string
}.

Definition errors_New (s : string) : error := errorString s.

Definition Initialize (r : Resolver) (ctx : Context) : option error := None.

Definition GetName (r : Resolver) (ctx : Context) : string := "Hub".

Definition GetConfigName (r : Resolver) (ctx : Context) : string :=
  "hubresolver-config".

(** Modelled from the spec: the selector has a single entry, keyed by
    the fixed resolver-type label [common.LabelKeyResolverType], which
    the comment on [LabelValueHubResolverType] gives as
    resolution.tekton.dev/type. *)
Definition LabelKeyResolverType : string := "resolution.tekton.dev/type".

Definition GetSelector (r : Resolver) (ctx : Context) : gmap string string :=
  {[ LabelKeyResolverType := LabelValueHubResolverType ]}.

Definition isDisabled (r : Resolver) (ctx : Context) : bool :=
  let cfg := FromContextOrDefaults ctx in
  if EnableHubResolver (Flags cfg) then false else true.

(** [for _, p := range params { paramsMap[p.Name] = f(p.Value) }]. *)
Definition collect {V} (f : ParamValue → V) (params : list Param) : gmap string V :=
  foldl (fun m p => <[Name p := f (Value p)]> m) ∅ params.

(** [ValidateParams]; [None] is the [nil] error. *)
Definition ValidateParams (r : Resolver) (ctx : Context) (params : list Param)
  : option error :=
  if isDisabled r ctx then Some (errors_New disabledError)
  else
    let paramsMap := collect (fun v => v) params in
    match paramsMap !! ParamName with
    | None => Some (errors_New msgNameParam)
    | Some _ =>
      match paramsMap !! ParamVersion with
      | None => Some (errors_New msgVersionParam)
      | Some _ =>
        match paramsMap !! ParamKind with
        | Some kind =>
          if negb (String.eqb (StringVal kind) "task")
             && negb (String.eqb (StringVal kind) "pipeline")
          then Some (errors_New msgKindParam)
          else None
        | None => None
        end
      end
    end.

Record dataResponse := {
  YAML : string
}.

(** The field [Data] of [hubResponse] is written [Data_]: [Data] is the
    accessor of [ResolvedResource]. *)
Record hubResponse := {
  Data_ : dataResponse
}.

(** [json.Unmarshal] at the two struct types.  An object is stored
    member by member, in the order of the input: a member whose key is
    the field's name up to case goes to the field, any other member is
    skipped; [null] leaves the target as it is; any other value is a
    type error.  After a type error storing goes on, and the first error
    is what [Unmarshal] returns. *)
Fixpoint object_dataResponse (members : list (string * json.Value))
  (cur : dataResponse) (saved : option error) : dataResponse * option error :=
  match members with
  | [] => (cur, saved)
  | (key, v) :: members' =>
    if json.equalFold "yaml" key then
      let '(s, saved') := json.store_string v (YAML cur) saved in
      object_dataResponse members' {| YAML := s |} saved'
    else object_dataResponse members' cur saved
  end.

Definition value_dataResponse (v : json.Value) (cur : dataResponse)
  (saved : option error) : dataResponse * option error :=
  match v with
  | json.Object members => object_dataResponse members cur saved
  | json.Null => (cur, saved)
  | _ => (cur, json.saveError saved (UnmarshalTypeError (json.kind_name v)))
  end.

Fixpoint object_hubResponse (members : list (string * json.Value))
  (cur : hubResponse) (saved : option error) : hubResponse * option error :=
  match members with
  | [] => (cur, saved)
  | (key, v) :: members' =>
    if json.equalFold "data" key then
      let '(d, saved') := value_dataResponse v (Data_ cur) saved in
      object_hubResponse members' {| Data_ := d |} saved'
    else object_hubResponse members' cur saved
  end.

Definition value_hubResponse (v : json.Value) (cur : hubResponse)
  (saved : option error) : hubResponse * option error :=
  match v with
  | json.Object members => object_hubResponse members cur saved
  | json.Null => (cur, saved)
  | _ => (cur, json.saveError saved (UnmarshalTypeError (json.kind_name v)))
  end.

(** [json.Unmarshal(body, &hr)]: the struct after the call and the error
    returned. *)
Definition Unmarshal (body : list Byte.byte) (hr : hubResponse)
  : hubResponse * option error :=
  match json.parse body with
  | None => (hr, Some SyntaxError)
  | Some v => value_hubResponse v hr None
  end.

Record ResolvedHubResource := {
  Content : list Byte.byte
}.

#[export] Instance ResolvedHubResource_ResolvedResource
  : ResolvedResource ResolvedHubResource := {|
  Data rr := Content rr;
  Annotations _ := None;
  Source _ := None
|}.

(** [paramsMap[k]] read as a value: the empty string when [k] is not a
    key. *)
Definition index (m : gmap string string) (k : string) : string :=
  default EmptyString (m !! k).

(** [Resolve], from the building of [paramsMap] to [paramsMap[ParamKind]
    = kind]: the parameters merged with the defaults of the
    installation. *)
Definition Resolve_params `{ConfigKeys} (ctx : Context) (params : list Param)
  : result (gmap string string) :=
  let conf := GetResolverConfigFromContext ctx in
  let paramsMap := collect StringVal params in
  match
    match paramsMap !! ParamCatalog with
    | Some _ => Ok paramsMap
    | None =>
      match conf !! ConfigCatalog with
      | Some catalogString => Ok (<[ParamCatalog := catalogString]> paramsMap)
      | None =>
        Err (errorString msgDefaultCatalog)
      end
    end
  with
  | Err e => Err e
  | Ok paramsMap =>
    match
      match paramsMap !! ParamKind with
      | Some kind => Ok kind
      | None =>
        match conf !! ConfigKind with
        | Some kindString => Ok kindString
        | None =>
          Err (errorString msgDefaultKind)
        end
      end
    with
    | Err e => Err e
    | Ok kind =>
      if negb (String.eqb kind "task") && negb (String.eqb kind "pipeline")
      then Err (errorString msgKindParam)
      else Ok (<[ParamKind := kind]> paramsMap)
    end
  end.

(** The URL [Resolve] builds from the merged parameters. *)
Definition hub_url `{GoLib} (r : Resolver) (paramsMap : gmap string string) : string :=
  Sprintf (HubURL r)
    [index paramsMap ParamCatalog; index paramsMap ParamKind;
     index paramsMap ParamName; index paramsMap ParamVersion].

(** [Resolve], from [fmt.Sprintf] to the end. *)
Definition Resolve_fetch `{GoLib} (r : Resolver) (net : Network)
  (paramsMap : gmap string string) : M ResolvedHubResource :=
  (let url := hub_url r paramsMap in
   resp <- on_error (http_Get net url)
             (Errorf_w "error requesting resource from hub: ") ;;
   if negb (StatusCode resp =? StatusOK) then
     fail (errorString (msgNotFound url))
   else
     defer (Close (Body resp))
       (body <- on_error (io_ReadAll (Body resp))
                  (Errorf_w "error reading response body: ") ;;
        let '(hr, err) := Unmarshal body {| Data_ := {| YAML := EmptyString |} |} in
        match err with
        | Some err => fail (Errorf_w "error unmarshalling json response: " err)
        | None => ret {| Content := bytes_of_string (YAML (Data_ hr)) |}
        end))%go.

Definition Resolve `{GoLib} `{ConfigKeys} (r : Resolver) (ctx : Context)
  (net : Network) (params : list Param) : M ResolvedHubResource :=
  if isDisabled r ctx then fail (errors_New disabledError)
  else
    match Resolve_params ctx params with
    | Err e => fail e
    | Ok paramsMap => Resolve_fetch r net paramsMap
    end.

(* ===================================================================== *)
(** * The vocabulary of the specification *)
(* ===================================================================== *)

(** The error kinds the specification names. *)
Inductive ErrorKind :=
| ConfigurationError
| MissingParameterError
| InvalidParameterError
| MissingDefaultError
| FetchError
| NotFoundError
| DecodeError.

(** [strings.HasPrefix]. *)
Fixpoint HasPrefix (s p : string) {struct p} : bool :=
  match p with
  | EmptyString => true
  | String a p' =>
    match s with
    | EmptyString => false
    | String b s' => Ascii.eqb a b && HasPrefix s' p'
    end
  end.

(** The kind of an error of the resolver, read off its text.  The error
    of a failed read of the body has no kind in the specification. *)
Definition error_kind (e : error) : option ErrorKind :=
  match e with
  | errorString s =>
    if String.eqb s disabledError then Some ConfigurationError
    else if String.eqb s msgNameParam || String.eqb s msgVersionParam
    then Some MissingParameterError
    else if String.eqb s msgKindParam then Some InvalidParameterError
    else if String.eqb s msgDefaultCatalog || String.eqb s msgDefaultKind
    then Some MissingDefaultError
    else if HasPrefix s "requested resource '" then Some NotFoundError
    else None
  | wrapError msg _ =>
    if HasPrefix msg "error requesting resource from hub: " then Some FetchError
    else if HasPrefix msg "error unmarshalling json response: "
    then Some DecodeError
    else None
  | _ => None
  end.

(** [strings.Contains]. *)
Fixpoint contains (s sub : string) : bool :=
  HasPrefix s sub
  || match s with
     | EmptyString => false
     | String _ s' => contains s' sub
     end.

Definition lower_ascii (c : ascii) : ascii :=
  let n := N_of_ascii c in
  if ((65 <=? n) && (n <=? 90))%N then ascii_of_N (n + 32) else c.

Fixpoint lower (s : string) : string :=
  match s with
  | EmptyString => EmptyString
  | String c s' => String (lower_ascii c) (lower s')
  end.

(** An error text mentions a word, whatever the case of its letters. *)
Definition mentions (msg word : string) : bool :=
  contains (lower msg) (lower word).

(** A parameter list collapsed to a mapping, the last write winning:
    the value of the last parameter named [k], if there is one. *)
Fixpoint last_value {V} (f : ParamValue → V) (k : string) (params : list Param)
  : option V :=
  match params with
  | [] => None
  | p :: params' =>
    match last_value f k params' with
    | Some v => Some v
    | None => if String.eqb (Name p) k then Some (f (Value p)) else None
    end
  end.

(** The value of a parameter of the request. *)
Definition supplied (k : string) (params : list Param) : option string :=
  last_value StringVal k params.

(** The effective value of a parameter with a default: the request's
    value, else the default of the installation. *)
Definition effective (k confKey : string) (params : list Param)
  (conf : gmap string string) : option string :=
  match supplied k params with
  | Some v => Some v
  | None => conf !! confKey
  end.

Definition valid_kind (k : string) : bool :=
  String.eqb k "task" || String.eqb k "pipeline".

(** The feature flag of the context is on. *)
Definition enabled (ctx : Context) : bool :=
  EnableHubResolver (Flags (FromContextOrDefaults ctx)).

(** The envelope of the hub: [{"data": {"yaml": s}}]. *)
Definition envelope (s : string) : json.Value :=
  json.Object [("data", json.Object [("yaml", json.Str s)])].

(** A byte that stands for itself in a JSON string literal and is one
    byte of text: printable ASCII other than the quote and the
    backslash. *)
Definition plain_char (c : ascii) : bool :=
  ((32 <=? N_of_ascii c) && (N_of_ascii c <? 128))%N
  && negb (Ascii.eqb c json.quote) && negb (Ascii.eqb c "\").

Fixpoint plain (s : string) : bool :=
  match s with
  | EmptyString => true
  | String c s' => plain_char c && plain s'
  end.

(** The text [{"data":{"yaml":"s"}}] with [s] written as it is. *)
Definition envelope_text (s : string) : string :=
  "{" +:+ String json.quote "data" +:+ String json.quote ":{"
  +:+ String json.quote "yaml" +:+ String json.quote ":"
  +:+ String json.quote s +:+ String json.quote "}}".

(** A value fits a target of kind string. *)
Definition fits_string (v : json.Value) : bool :=
  match v with
  | json.Str _ | json.Null => true
  | _ => false
  end.

(** A value fits [dataResponse]: it is [null], or an object in which
    every member named yaml (up to case) fits a string. *)
Definition fits_dataResponse (v : json.Value) : bool :=
  match v with
  | json.Null => true
  | json.Object members =>
    forallb (fun kv => if json.equalFold "yaml" (fst kv) then fits_string (snd kv) else true)
      members
  | _ => false
  end.

(** A value fits [hubResponse]: it is [null], or an object in which
    every member named data (up to case) fits [dataResponse]. *)
Definition fits_hubResponse (v : json.Value) : bool :=
  match v with
  | json.Null => true
  | json.Object members =>
    forallb (fun kv => if json.equalFold "data" (fst kv) then fits_dataResponse (snd kv) else true)
      members
  | _ => false
  end.

(** An object has a member of that name, up to case. *)
Definition has_member (name : string) (v : json.Value) : bool :=
  match v with
  | json.Object members => existsb (fun kv => json.equalFold name (fst kv)) members
  | _ => false
  end.

(** An object gives no yaml string: none of its members named data has
    a member named yaml. *)
Definition yaml_absent (v : json.Value) : bool :=
  match v with
  | json.Object members =>
    forallb (fun kv => if json.equalFold "data" (fst kv)
                       then negb (has_member "yaml" (snd kv)) else true)
      members
  | _ => false
  end.

(* ===================================================================== *)
(** * Instances for the examples *)
(* ===================================================================== *)

(** A string literal with every apostrophe turned into a double quote,
    to write JSON texts. *)
Definition dq (s : string) : string :=
  string_of_list_ascii
    (map (fun c => if Ascii.eqb c "'" then json.quote else c) (list_ascii_of_string s)).

Fixpoint extra_operands (a : list string) : string :=
  match a with
  | [] => EmptyString
  | [x] => "string=" +:+ x
  | x :: a' => "string=" +:+ x +:+ ", " +:+ extra_operands a'
  end.

(** [fmt.Sprintf] on string operands for a format whose only directives
    are [%s] and [%%]. *)
Fixpoint Sprintf_s (format : string) (a : list string) : string :=
  match format with
  | EmptyString =>
    match a with
    | [] => EmptyString
    | _ :: _ => "%!(EXTRA " +:+ extra_operands a +:+ ")"
    end
  | String "%" (String "s" rest) =>
    match a with
    | x :: a' => x +:+ Sprintf_s rest a'
    | [] => "%!s(MISSING)" +:+ Sprintf_s rest []
    end
  | String "%" (String "%" rest) => String "%" (Sprintf_s rest a)
  | String c rest => String c (Sprintf_s rest a)
  end.

(** The library for the examples; the texts of the errors of
    [encoding/json] are shortened. *)
Definition example_lib : GoLib := {|
  Sprintf := Sprintf_s;
  json_Error e :=
    match e with
    | UnmarshalTypeError v => "json: cannot unmarshal " +:+ v
    | _ => "json: syntax error"
    end
|}.

Definition example_keys : ConfigKeys := {|
  ConfigCatalog := "default-catalog";
  ConfigKind := "default-kind"
|}.

Definition param (name value : string) : Param :=
  {| Name := name;
     Value := {| StringVal := value; ArrayVal := []; ObjectVal := ∅ |} |}.

Definition context (flag : bool) (conf : list (string * string)) : Context :=
  {| FromContextOrDefaults := {| Flags := {| EnableHubResolver := flag |} |};
     GetResolverConfigFromContext := list_to_map conf |}.

(** A hub that answers every request with the same status and body. *)
Definition hub_answering (status : Z) (body : string) : Network :=
  {| answer _ :=
       Ok {| StatusCode := status;
             Body := {| content := bytes_of_string body; read_err := None |} |} |}.

Definition tekton_hub : Resolver :=
  {| HubURL := "https://api.hub.tekton.dev/v1/resource/%s/%s/%s/%s/yaml" |}.

Definition no_params : list Param := [].

Definition ctx_bare : Context := context true [].

Definition ctx_catalog : Context := context true [("default-catalog", "Tekton")].

Definition ctx_defaults : Context :=
  context true [("default-catalog", "Tekton"); ("default-kind", "task")].

Definition bogus_kind : list Param :=
  [param "name" "git-clone"; param "version" "0.9"; param "kind" "bogus"].

Definition only_bogus_kind : list Param := [param "kind" "bogus"].


Definition newline : string := String "010" EmptyString.

Definition task_yaml : string := "kind: Task" +:+ newline +:+ "name: foo".

Definition full_request : list Param :=
  [param "name" "git-clone"; param "version" "0.9"; param "kind" "task"].

Definition task_envelope : string :=
  dq "{'data':{'yaml':'kind: Task\nname: foo'}}".

Definition example_url : string :=
  "https://api.hub.tekton.dev/v1/resource/Tekton/task/git-clone/0.9/yaml".

(** The merged parameters of [full_request] under [ctx_catalog]. *)
Definition merged_example : gmap string string :=
  match @Resolve_params example_keys ctx_catalog full_request with
  | Ok m => m
  | Err _ => ∅
  end.

(** A hub that cannot be reached: [http.Get] fails with [cause]. *)
Definition unreachable_hub (cause : error) : Network :=
  {| answer _ := Err cause |}.

(** A hub that answers with status 200 and a body whose reading fails
    with [cause]. *)
Definition unreadable_hub (cause : error) : Network :=
  {| answer _ :=
       Ok {| StatusCode := 200;
             Body := {| content := []; read_err := Some cause |} |} |}.

Definition connection_refused : error := errorString "connection refused".

(** [full_request] with its parameters in another order, a parameter of
    another name and two parameters that later ones override. *)
Definition noisy_request : list Param :=
  [param "kind" "pipeline"; param "version" "0.1"; param "timeout" "5m";
   param "kind" "task"; param "name" "git-clone"; param "version" "0.9"].

Definition full_request_with_catalog : list Param :=
  [param "catalog" "Tekton"; param "name" "git-clone"; param "version" "0.9";
   param "kind" "task"].

Definition name_and_version : list Param :=
  [param "name" "git-clone"; param "version" "0.9"].

(** A member of the envelope that goes to the field [Data]. *)
Definition is_data_member (kv : string * json.Value) : bool :=
  json.equalFold "data" (fst kv).

(* ===================================================================== *)
(** * Lemmas on the Go values and the effects *)
(* ===================================================================== *)

Lemma HasPrefix_app (p s : string) : HasPrefix (p +:+ s) p = true.
Proof.
  induction p as [|a p IH]; simpl; [done|].
  by rewrite Ascii.eqb_refl, IH.
Qed.

Lemma contains_prefix (s sub : string) :
  HasPrefix s sub = true → contains s sub = true.
Proof. intros E. destruct s; cbn [contains]; by rewrite E. Qed.

Lemma contains_app (a b c : string) : contains (a +:+ b +:+ c) b = true.
Proof.
  induction a as [|x a IH].
  - change (contains (b +:+ c) b = true). apply contains_prefix, HasPrefix_app.
  - change (contains (String x (a +:+ b +:+ c)) b = true).
    cbn [contains]. rewrite IH. apply orb_true_r.
Qed.

Lemma string_of_bytes_of_string (s : string) : string_of_bytes (bytes_of_string s) = s.
Proof. apply string_of_list_byte_of_string. Qed.

Lemma valid_kind_spec (k : string) :
  valid_kind k = true ↔ k = "task" ∨ k = "pipeline".
Proof.
  unfold valid_kind. rewrite orb_true_iff, !String.eqb_eq. tauto.
Qed.

Lemma kind_guard (k : string) :
  negb (String.eqb k "task") && negb (String.eqb k "pipeline") = negb (valid_kind k).
Proof. unfold valid_kind. by rewrite negb_orb. Qed.

(* ===================================================================== *)
(** * Collapsing a parameter list *)
(* ===================================================================== *)

Section Collapse.
Context {V : Type} (f : ParamValue → V).

Lemma foldl_lookup (params : list Param) (m : gmap string V) (k : string) :
  foldl (fun m p => <[Name p := f (Value p)]> m) m params !! k
  = match last_value f k params with
    | Some v => Some v
    | None => m !! k
    end.
Proof.
  revert m. induction params as [|p params IH]; intros m; simpl; [done|].
  rewrite IH. destruct (last_value f k params); [done|].
  destruct (String.eqb_spec (Name p) k) as [->|Hne].
  - by rewrite lookup_insert_eq.
  - by rewrite lookup_insert_ne.
Qed.

(** The map the loops of [ValidateParams] and [Resolve] build is the
    list collapsed with the last write winning. *)
Lemma collect_lookup (params : list Param) (k : string) :
  collect f params !! k = last_value f k params.
Proof.
  unfold collect. rewrite foldl_lookup.
  by destruct (last_value f k params).
Qed.

Lemma last_value_None (params : list Param) (k : string) :
  last_value f k params = None ↔ k ∉ map Name params.
Proof.
  induction params as [|p params IH]; simpl.
  - split; [intros _; apply not_elem_of_nil | done].
  - rewrite not_elem_of_cons, <- IH.
    destruct (last_value f k params).
    + split; [discriminate | intros [_ ?]; discriminate].
    + destruct (String.eqb_spec (Name p) k) as [E|E].
      * split; [discriminate | intros [? _]; congruence].
      * split; [intros _; split; congruence | done].
Qed.
End Collapse.

Lemma supplied_None {V} (f : ParamValue → V) (params : list Param) (k : string) :
  supplied k params = None ↔ last_value f k params = None.
Proof. unfold supplied. by rewrite !last_value_None. Qed.

Lemma last_value_StringVal (params : list Param) (k : string) :
  supplied k params = StringVal <$> last_value (fun v => v) k params.
Proof.
  unfold supplied. induction params as [|p params IH]; simpl; [done|].
  rewrite IH. destruct (last_value (fun v => v) k params); simpl; [done|].
  by destruct (String.eqb (Name p) k).
Qed.

(* ===================================================================== *)
(** * The feature gate *)
(* ===================================================================== *)

Lemma isDisabled_enabled (r : Resolver) (ctx : Context) :
  isDisabled r ctx = negb (enabled ctx).
Proof. unfold isDisabled, enabled. by destruct (EnableHubResolver _). Qed.

Lemma error_kind_disabled :
  error_kind (errorString disabledError) = Some ConfigurationError.
Proof. reflexivity. Qed.

(** C10. With the feature flag off, [ValidateParams] and [Resolve] both
    fail at once with the feature-disabled error, a
    [ConfigurationError], whatever the parameters and the installation
    configuration are, and [Resolve] performs no action at all: no HTTP
    request in particular. *)
Theorem disabled_resolver_fails `{GoLib} `{ConfigKeys}
  (r : Resolver) (ctx : Context) (net : Network) (params : list Param) :
  enabled ctx = false →
  ValidateParams r ctx params = Some (errorString disabledError)
  ∧ Resolve r ctx net params = ([], Err (errorString disabledError))
  ∧ error_kind (errorString disabledError) = Some ConfigurationError.
Proof.
  intros Hoff. unfold ValidateParams, Resolve.
  rewrite isDisabled_enabled, Hoff. simpl. auto using error_kind_disabled.
Qed.

Lemma disabled_resolver_fails_witness :
  enabled (context false [("default-catalog", "Tekton")]) = false
  ∧ ValidateParams tekton_hub (context false [("default-catalog", "Tekton")])
      full_request = Some (errorString disabledError)
  ∧ @Resolve example_lib example_keys tekton_hub
      (context false [("default-catalog", "Tekton")])
      (hub_answering 200 task_envelope) full_request
    = ([], Err (errorString disabledError)).
Proof.
  pose proof (@disabled_resolver_fails example_lib example_keys tekton_hub
    (context false [("default-catalog", "Tekton")])
    (hub_answering 200 task_envelope) full_request eq_refl) as (Hv & Hr & _).
  exact (conj eq_refl (conj Hv Hr)).
Defined.

(* ===================================================================== *)
(** * ValidateParams *)
(* ===================================================================== *)

(** What [ValidateParams] returns with the flag on, by the parameters of
    the request. *)
Lemma ValidateParams_spec (r : Resolver) (ctx : Context) (params : list Param) :
  enabled ctx = true →
  ValidateParams r ctx params =
    match supplied ParamName params with
    | None => Some (errorString msgNameParam)
    | Some _ =>
      match supplied ParamVersion params with
      | None => Some (errorString msgVersionParam)
      | Some _ =>
        match supplied ParamKind params with
        | Some k => if valid_kind k then None else Some (errorString msgKindParam)
        | None => None
        end
      end
    end.
Proof.
  intros Hon. unfold ValidateParams. rewrite isDisabled_enabled, Hon. simpl.
  rewrite !collect_lookup, !last_value_StringVal.
  destruct (last_value _ ParamName params); simpl; [|done].
  destruct (last_value _ ParamVersion params); simpl; [|done].
  destruct (last_value _ ParamKind params) as [k|]; simpl; [|done].
  rewrite kind_guard. by destruct (valid_kind _).
Qed.

(** C9. With the resolver enabled, a parameter list that, collapsed with
    the last write winning, has no name parameter or no version
    parameter makes [ValidateParams] fail with a
    [MissingParameterError], whatever its other parameters are: the
    error asks for name when name is absent and for version otherwise. *)
Theorem ValidateParams_requires_name_and_version
  (r : Resolver) (ctx : Context) (params : list Param) :
  enabled ctx = true →
  supplied ParamName params = None ∨ supplied ParamVersion params = None →
  ∃ e, ValidateParams r ctx params = Some e
       ∧ error_kind e = Some MissingParameterError
       ∧ e = errorString match supplied ParamName params with
                          | Some _ => msgVersionParam
                          | None => msgNameParam
                          end.
Proof.
  intros Hon Habs. rewrite ValidateParams_spec by done.
  destruct (supplied ParamName params) as [n|].
  - destruct Habs as [?| ->]; [done|]. by eexists.
  - by eexists.
Qed.

Lemma ValidateParams_requires_name_and_version_witness :
  enabled (context true []) = true
  ∧ (supplied ParamName [param "version" "0.9"; param "kind" "task"] = None
     ∨ supplied ParamVersion [param "version" "0.9"; param "kind" "task"] = None)
  ∧ ∃ e, ValidateParams tekton_hub (context true [])
           [param "version" "0.9"; param "kind" "task"] = Some e
         ∧ error_kind e = Some MissingParameterError.
Proof.
  split; [reflexivity|]. split; [left; reflexivity|].
  destruct (ValidateParams_requires_name_and_version tekton_hub (context true [])
    [param "version" "0.9"; param "kind" "task"] eq_refl (or_introl eq_refl))
    as (e & He & Hk & _).
  exists e. exact (conj He Hk).
Defined.

(* ===================================================================== *)
(** * Resolve: merging the defaults *)
(* ===================================================================== *)

Section Merge.
Context `{ConfigKeys}.

(** What the first half of [Resolve] returns, by the effective values
    of catalog and kind: the catalog is looked at first, then the
    kind. *)
Lemma Resolve_params_spec (ctx : Context) (params : list Param) :
  Resolve_params ctx params =
    let conf := GetResolverConfigFromContext ctx in
    match effective ParamCatalog ConfigCatalog params conf with
    | None => Err (errorString msgDefaultCatalog)
    | Some c =>
      match effective ParamKind ConfigKind params conf with
      | None => Err (errorString msgDefaultKind)
      | Some k =>
        if valid_kind k
        then Ok (<[ParamKind := k]> (<[ParamCatalog := c]> (collect StringVal params)))
        else Err (errorString msgKindParam)
      end
    end.
Proof.
  unfold Resolve_params, effective, supplied. cbv zeta.
  rewrite collect_lookup.
  destruct (last_value StringVal ParamCatalog params) as [c|] eqn:Ec.
  - rewrite collect_lookup.
    assert (<[ParamCatalog := c]> (collect StringVal params) = collect StringVal params)
      as -> by (apply insert_id; by rewrite collect_lookup).
    destruct (last_value StringVal ParamKind params) as [k|];
      [|destruct (_ !! ConfigKind) as [k|]; [|done]];
      rewrite kind_guard; by destruct (valid_kind k).
  - destruct (_ !! ConfigCatalog) as [c|]; [|done].
    rewrite lookup_insert_ne by done. rewrite collect_lookup.
    destruct (last_value StringVal ParamKind params) as [k|];
      [|destruct (_ !! ConfigKind) as [k|]; [|done]];
      rewrite kind_guard; by destruct (valid_kind k).
Qed.

(** The merged mapping, entry by entry. *)
Lemma Resolve_params_lookup (ctx : Context) (params : list Param)
  (m : gmap string string) :
  Resolve_params ctx params = Ok m →
  let conf := GetResolverConfigFromContext ctx in
  m !! ParamCatalog = effective ParamCatalog ConfigCatalog params conf
  ∧ m !! ParamKind = effective ParamKind ConfigKind params conf
  ∧ m !! ParamName = supplied ParamName params
  ∧ m !! ParamVersion = supplied ParamVersion params
  ∧ is_Some (m !! ParamCatalog)
  ∧ (m !! ParamKind = Some "task" ∨ m !! ParamKind = Some "pipeline").
Proof.
  rewrite Resolve_params_spec. cbv zeta.
  destruct (effective ParamCatalog _ _ _) as [c|]; [|done].
  destruct (effective ParamKind _ _ _) as [k|]; [|done].
  destruct (valid_kind k) eqn:Ek; [|done].
  intros [= <-]. apply valid_kind_spec in Ek.
  rewrite lookup_insert_eq.
  rewrite !(lookup_insert_ne _ ParamKind) by done.
  rewrite lookup_insert_eq.
  rewrite !(lookup_insert_ne _ ParamCatalog) by done.
  rewrite !collect_lookup.
  repeat split; try done. destruct Ek; subst; auto.
Qed.
End Merge.

Lemma error_kind_default_catalog :
  error_kind (errorString msgDefaultCatalog) = Some MissingDefaultError.
Proof. reflexivity. Qed.

Lemma error_kind_default_kind :
  error_kind (errorString msgDefaultKind) = Some MissingDefaultError.
Proof. reflexivity. Qed.

Lemma error_kind_kind_param :
  error_kind (errorString msgKindParam) = Some InvalidParameterError.
Proof. reflexivity. Qed.

Lemma error_kind_not_found (url : string) :
  error_kind (errorString (msgNotFound url)) = Some NotFoundError.
Proof. reflexivity. Qed.

Lemma error_kind_decode `{GoLib} (e : error) :
  error_kind (Errorf_w "error unmarshalling json response: " e) = Some DecodeError.
Proof. reflexivity. Qed.

Lemma error_kind_fetch `{GoLib} (e : error) :
  error_kind (Errorf_w "error requesting resource from hub: " e) = Some FetchError.
Proof. reflexivity. Qed.

(* ===================================================================== *)
(** * Resolve: fetching and decoding *)
(* ===================================================================== *)

Section Fetch.
Context `{GoLib}.

Variables (r : Resolver) (net : Network) (m : gmap string string).

Let url := hub_url r m.

(** The transport fails: nothing but the request happens. *)
Lemma Resolve_fetch_transport_error (e : error) :
  answer net url = Err e →
  Resolve_fetch r net m
  = ([EvGet url], Err (Errorf_w "error requesting resource from hub: " e)).
Proof.
  intros Ea. unfold Resolve_fetch, http_Get. cbv zeta. fold url.
  rewrite Ea. reflexivity.
Qed.

(** A status other than 200: [Resolve] returns before the [defer]
    statement is reached, with the request as its only action. *)
Lemma Resolve_fetch_not_found (resp : Response) :
  answer net url = Ok resp →
  StatusCode resp ≠ StatusOK →
  Resolve_fetch r net m = ([EvGet url], Err (errorString (msgNotFound url))).
Proof.
  intros Ea Hs. unfold Resolve_fetch, http_Get. cbv zeta. fold url.
  rewrite Ea. simpl.
  destruct (Z.eqb_spec (StatusCode resp) StatusOK); [done|]. reflexivity.
Qed.

(** Status 200 and a body that cannot be read. *)
Lemma Resolve_fetch_read_error (resp : Response) (e : error) :
  answer net url = Ok resp →
  StatusCode resp = StatusOK →
  read_err (Body resp) = Some e →
  Resolve_fetch r net m
  = ([EvGet url; EvReadAll; EvClose],
     Err (Errorf_w "error reading response body: " e)).
Proof.
  intros Ea Hs Hr. unfold Resolve_fetch, http_Get, io_ReadAll. cbv zeta. fold url.
  rewrite Ea. simpl. rewrite Hs, Hr. reflexivity.
Qed.

(** Status 200 and a body that is read: the outcome is that of
    [json.Unmarshal]. *)
Lemma Resolve_fetch_decode (resp : Response) :
  answer net url = Ok resp →
  StatusCode resp = StatusOK →
  read_err (Body resp) = None →
  Resolve_fetch r net m
  = ([EvGet url; EvReadAll; EvClose],
     match Unmarshal (content (Body resp)) {| Data_ := {| YAML := EmptyString |} |} with
     | (_, Some e) => Err (Errorf_w "error unmarshalling json response: " e)
     | (hr, None) => Ok {| Content := bytes_of_string (YAML (Data_ hr)) |}
     end).
Proof.
  intros Ea Hs Hr. unfold Resolve_fetch, http_Get, io_ReadAll. cbv zeta. fold url.
  rewrite Ea. simpl. rewrite Hs, Hr. simpl.
  destruct (Unmarshal _ _) as [hr [e|]]; reflexivity.
Qed.
End Fetch.

Section Gate.
Context `{GoLib} `{ConfigKeys}.

(** With the flag on, [Resolve] is its two halves in sequence. *)
Lemma Resolve_enabled (r : Resolver) (ctx : Context) (net : Network)
  (params : list Param) :
  enabled ctx = true →
  Resolve r ctx net params =
    match Resolve_params ctx params with
    | Err e => ([], Err e)
    | Ok m => Resolve_fetch r net m
    end.
Proof.
  intros Hon. unfold Resolve. by rewrite isDisabled_enabled, Hon.
Qed.
End Gate.

(* ===================================================================== *)
(** * Decoding the envelope *)
(* ===================================================================== *)

Lemma store_string_saved (v : json.Value) (cur : string) (e : error) :
  snd (json.store_string v cur (Some e)) = Some e.
Proof. by destruct v. Qed.

Lemma store_string_fits (v : json.Value) (cur : string) :
  fits_string v = true → snd (json.store_string v cur None) = None.
Proof. by destruct v. Qed.

Lemma store_string_misfit (v : json.Value) (cur : string) :
  fits_string v = false →
  json.store_string v cur None = (cur, Some (UnmarshalTypeError (json.kind_name v))).
Proof. by destruct v. Qed.

Lemma object_dataResponse_saved members cur (e : error) :
  snd (object_dataResponse members cur (Some e)) = Some e.
Proof.
  revert cur. induction members as [|[key v] members IH]; intros cur; simpl; [done|].
  destruct (json.equalFold "yaml" key); [|apply IH].
  pose proof (store_string_saved v (YAML cur) e) as Hs.
  destruct (json.store_string v (YAML cur) (Some e)) as [s saved'].
  simpl in Hs. subst saved'. apply IH.
Qed.

Lemma object_dataResponse_error members cur :
  if fits_dataResponse (json.Object members)
  then snd (object_dataResponse members cur None) = None
  else ∃ k, snd (object_dataResponse members cur None) = Some (UnmarshalTypeError k).
Proof.
  revert cur. induction members as [|[key v] members IH]; intros cur; simpl; [done|].
  simpl in IH.
  destruct (json.equalFold "yaml" key); [|apply IH].
  destruct (fits_string v) eqn:Ev; simpl.
  - pose proof (store_string_fits v (YAML cur) Ev) as Hs.
    destruct (json.store_string v (YAML cur) None) as [s saved'].
    simpl in Hs. subst saved'. apply IH.
  - rewrite (store_string_misfit v (YAML cur) Ev).
    eexists. apply object_dataResponse_saved.
Qed.

Lemma value_dataResponse_saved v cur (e : error) :
  snd (value_dataResponse v cur (Some e)) = Some e.
Proof. destruct v; try done. apply object_dataResponse_saved. Qed.

Lemma value_dataResponse_error v cur :
  if fits_dataResponse v
  then snd (value_dataResponse v cur None) = None
  else ∃ k, snd (value_dataResponse v cur None) = Some (UnmarshalTypeError k).
Proof.
  destruct v; simpl; try done; try by eexists.
  apply object_dataResponse_error.
Qed.

Lemma object_hubResponse_saved members cur (e : error) :
  snd (object_hubResponse members cur (Some e)) = Some e.
Proof.
  revert cur. induction members as [|[key v] members IH]; intros cur; simpl; [done|].
  destruct (json.equalFold "data" key); [|apply IH].
  pose proof (value_dataResponse_saved v (Data_ cur) e) as Hs.
  destruct (value_dataResponse v (Data_ cur) (Some e)) as [d saved'].
  simpl in Hs. subst saved'. apply IH.
Qed.

Lemma object_hubResponse_error members cur :
  if fits_hubResponse (json.Object members)
  then snd (object_hubResponse members cur None) = None
  else ∃ k, snd (object_hubResponse members cur None) = Some (UnmarshalTypeError k).
Proof.
  revert cur. induction members as [|[key v] members IH]; intros cur; simpl; [done|].
  simpl in IH.
  destruct (json.equalFold "data" key); [|apply IH].
  pose proof (value_dataResponse_error v (Data_ cur)) as Hv.
  destruct (value_dataResponse v (Data_ cur) None) as [d saved'].
  destruct (fits_dataResponse v); simpl in *.
  - subst saved'. apply IH.
  - destruct Hv as [k ->]. exists k. apply object_hubResponse_saved.
Qed.

Lemma value_hubResponse_error v cur :
  if fits_hubResponse v
  then snd (value_hubResponse v cur None) = None
  else ∃ k, snd (value_hubResponse v cur None) = Some (UnmarshalTypeError k).
Proof.
  destruct v; simpl; try done; try by eexists.
  apply object_hubResponse_error.
Qed.

(** [json.Unmarshal] returns an error exactly for an input that is not
    one JSON value or whose value does not fit [hubResponse]. *)
Lemma Unmarshal_error (body : list Byte.byte) (hr : hubResponse) :
  match json.parse body with
  | None => snd (Unmarshal body hr) = Some SyntaxError
  | Some v =>
    if fits_hubResponse v then snd (Unmarshal body hr) = None
    else ∃ k, snd (Unmarshal body hr) = Some (UnmarshalTypeError k)
  end.
Proof.
  unfold Unmarshal. destruct (json.parse body) as [v|]; [|done].
  apply value_hubResponse_error.
Qed.

(** Members that are skipped leave the target as it is. *)
Lemma object_dataResponse_untouched members cur saved :
  has_member "yaml" (json.Object members) = false →
  fst (object_dataResponse members cur saved) = cur.
Proof.
  induction members as [|[key v] members IH]; simpl; [done|].
  destruct (json.equalFold "yaml" key); simpl; [done|]. exact IH.
Qed.

Lemma value_dataResponse_untouched v cur saved :
  has_member "yaml" v = false → fst (value_dataResponse v cur saved) = cur.
Proof.
  destruct v; try done. apply object_dataResponse_untouched.
Qed.

Lemma object_hubResponse_untouched members cur saved :
  yaml_absent (json.Object members) = true →
  fst (object_hubResponse members cur saved) = cur.
Proof.
  revert cur saved.
  induction members as [|[key v] members IH]; intros cur saved; simpl; [done|].
  destruct (json.equalFold "data" key); simpl; [|apply IH].
  intros [Hv Hms]%andb_true_iff. apply negb_true_iff in Hv.
  pose proof (value_dataResponse_untouched v (Data_ cur) saved Hv) as Hd.
  destruct (value_dataResponse v (Data_ cur) saved) as [d saved'].
  simpl in Hd. subst d. destruct cur as [d]. simpl. by apply IH.
Qed.

Lemma Unmarshal_envelope (body : list Byte.byte) (s : string) (hr : hubResponse) :
  json.parse body = Some (envelope s) →
  Unmarshal body hr = ({| Data_ := {| YAML := s |} |}, None).
Proof. intros E. unfold Unmarshal. rewrite E. reflexivity. Qed.

(* ===================================================================== *)
(** * The resolved resource *)
(* ===================================================================== *)

(** A [ResolvedHubResource] holds nothing but what its accessors
    return. *)
Lemma ResolvedHubResource_ext (a b : ResolvedHubResource) :
  Data a = Data b → a = b.
Proof. destruct a, b. simpl. by intros ->. Qed.

Lemma append_EmptyString (s : string) : s +:+ EmptyString = s.
Proof.
  induction s as [|a s IH]; [done|].
  change (String a (s +:+ EmptyString) = String a s). by f_equal.
Qed.

Lemma Sprintf_s_slots (c k n v : string) :
  Sprintf_s "%s/%s/%s/%s" [c; k; n; v]
  = c +:+ "/" +:+ k +:+ "/" +:+ n +:+ "/" +:+ v.
Proof. simpl. by rewrite append_EmptyString. Qed.

(* ===================================================================== *)
(** * The claims on the merging of parameters *)
(* ===================================================================== *)

Section MergeClaims.
Context `{GoLib} `{ConfigKeys}.


(** C7, as amended.  With the resolver enabled: a request without
    catalog under a configuration without default catalog makes
    [Resolve] fail with the [MissingDefaultError] that mentions
    catalog; a request without kind under a configuration without
    default kind makes it fail with a [MissingDefaultError] too, the
    one that mentions kind when a catalog is at hand and the one that
    mentions catalog when it is not.  No action is performed in either
    case. *)
Theorem missing_default_fails (r : Resolver) (ctx : Context) (net : Network)
  (params : list Param) :
  enabled ctx = true →
  let conf := GetResolverConfigFromContext ctx in
  (supplied ParamCatalog params = None → conf !! ConfigCatalog = None →
   Resolve r ctx net params = ([], Err (errorString msgDefaultCatalog)))
  ∧ (supplied ParamKind params = None → conf !! ConfigKind = None →
     Resolve r ctx net params
     = ([], Err (errorString
              match effective ParamCatalog ConfigCatalog params conf with
              | Some _ => msgDefaultKind
              | None => msgDefaultCatalog
              end)))
  ∧ error_kind (errorString msgDefaultCatalog) = Some MissingDefaultError
  ∧ error_kind (errorString msgDefaultKind) = Some MissingDefaultError
  ∧ mentions msgDefaultCatalog ParamCatalog = true
  ∧ mentions msgDefaultKind ParamKind = true.
Proof.
  intros Hon conf. rewrite Resolve_enabled by done.
  rewrite Resolve_params_spec. cbv zeta. fold conf.
  repeat split; try reflexivity.
  - intros Hs Hc. unfold effective at 1. by rewrite Hs, Hc.
  - intros Hs Hc. destruct (effective ParamCatalog _ _ _); [|done].
    unfold effective. by rewrite Hs, Hc.
Qed.

(** C8, as amended.  With the resolver enabled: when the effective
    kind (the request's, else the default of the installation) is
    neither task nor pipeline, [Resolve] fails without any action,
    with the [InvalidParameterError] when a catalog is at hand and
    with the [MissingDefaultError] for the catalog when it is not;
    when the kind the request supplies is neither task nor pipeline,
    [ValidateParams] fails, with the [InvalidParameterError] when name
    and version are both supplied and with the
    [MissingParameterError] for the first of them that is absent
    otherwise. *)
Theorem invalid_kind_fails (r : Resolver) (ctx : Context) (net : Network)
  (params : list Param) (k : string) :
  enabled ctx = true →
  valid_kind k = false →
  let conf := GetResolverConfigFromContext ctx in
  (effective ParamKind ConfigKind params conf = Some k →
   Resolve r ctx net params
   = ([], Err (errorString
            match effective ParamCatalog ConfigCatalog params conf with
            | Some _ => msgKindParam
            | None => msgDefaultCatalog
            end)))
  ∧ (supplied ParamKind params = Some k →
     ValidateParams r ctx params
     = Some (errorString
         match supplied ParamName params, supplied ParamVersion params with
         | Some _, Some _ => msgKindParam
         | Some _, None => msgVersionParam
         | None, _ => msgNameParam
         end))
  ∧ error_kind (errorString msgKindParam) = Some InvalidParameterError
  ∧ error_kind (errorString msgDefaultCatalog) = Some MissingDefaultError
  ∧ error_kind (errorString msgNameParam) = Some MissingParameterError
  ∧ error_kind (errorString msgVersionParam) = Some MissingParameterError.
Proof.
  intros Hon Hk conf. repeat split; try reflexivity.
  - intros Ek. rewrite Resolve_enabled by done.
    rewrite Resolve_params_spec. cbv zeta. fold conf.
    destruct (effective ParamCatalog _ _ _); [|done].
    by rewrite Ek, Hk.
  - intros Ek. rewrite ValidateParams_spec by done.
    destruct (supplied ParamName params); [|done].
    destruct (supplied ParamVersion params); [|done].
    by rewrite Ek, Hk.
Qed.

(** C5.  With the resolver enabled and the four parameters at hand
    (catalog and kind from the request or else from the installation,
    kind being task or pipeline, name and version from the request),
    the first thing [Resolve] does is to request the URL that
    [fmt.Sprintf] makes of the template of the resolver and of the
    four values, catalog, kind, name, version in this order, each
    handed over as it is. *)
Theorem Resolve_builds_url (r : Resolver) (ctx : Context) (net : Network)
  (params : list Param) (c k n v : string) :
  enabled ctx = true →
  let conf := GetResolverConfigFromContext ctx in
  effective ParamCatalog ConfigCatalog params conf = Some c →
  effective ParamKind ConfigKind params conf = Some k →
  valid_kind k = true →
  supplied ParamName params = Some n →
  supplied ParamVersion params = Some v →
  ∃ m t res,
    Resolve_params ctx params = Ok m
    ∧ hub_url r m = Sprintf (HubURL r) [c; k; n; v]
    ∧ Resolve r ctx net params = (EvGet (Sprintf (HubURL r) [c; k; n; v]) :: t, res).
Proof.
  intros Hon conf Hc Hk Hvk Hn Hv.
  destruct (Resolve_params ctx params) as [m|e] eqn:Em; cycle 1.
  { rewrite Resolve_params_spec in Em. cbv zeta in Em. fold conf in Em.
    by rewrite Hc, Hk, Hvk in Em. }
  destruct (Resolve_params_lookup ctx params m Em) as (Mc & Mk & Mn & Mv & _).
  fold conf in Mc, Mk.
  assert (hub_url r m = Sprintf (HubURL r) [c; k; n; v]) as Hurl.
  { unfold hub_url, index. by rewrite Mc, Mk, Mn, Mv, Hc, Hk, Hn, Hv. }
  rewrite Resolve_enabled, Em by done.
  unfold Resolve_fetch, http_Get. cbv zeta. rewrite Hurl.
  destruct (answer net _) as [resp|e]; simpl.
  - destruct (negb _); simpl; [by eauto 6|].
    destruct (defer _ _) as [t res] eqn:Ed.
    unfold defer in Ed.
    destruct (bind _ _) as [t0 r0]. injection Ed as <- <-. by eauto 6.
  - by eauto 6.
Qed.
End MergeClaims.

(* ===================================================================== *)
(** * The claims on fetching and decoding *)
(* ===================================================================== *)

Section FetchClaims.
Context `{GoLib} `{ConfigKeys}.

(** C6.  When the request to the hub is answered with a status other
    than 200, [Resolve] fails with a [NotFoundError] whose text holds
    the URL it built, and the request is all it did: the body of the
    response is not read, so nothing of it is parsed, and the outcome
    does not depend on it. *)
Theorem Resolve_status_not_ok (r : Resolver) (ctx : Context) (net : Network)
  (params : list Param) (m : gmap string string) (resp : Response) :
  enabled ctx = true →
  Resolve_params ctx params = Ok m →
  answer net (hub_url r m) = Ok resp →
  StatusCode resp ≠ StatusOK →
  Resolve r ctx net params
  = ([EvGet (hub_url r m)], Err (errorString (msgNotFound (hub_url r m))))
  ∧ error_kind (errorString (msgNotFound (hub_url r m))) = Some NotFoundError
  ∧ contains (msgNotFound (hub_url r m)) (hub_url r m) = true
  ∧ EvReadAll ∉ trace (Resolve r ctx net params).
Proof.
  intros Hon Em Ea Hs.
  assert (Resolve r ctx net params
          = ([EvGet (hub_url r m)], Err (errorString (msgNotFound (hub_url r m)))))
    as Hres.
  { rewrite Resolve_enabled, Em by done. by eapply Resolve_fetch_not_found. }
  rewrite Hres. split; [reflexivity|]. split; [|split].
  - apply error_kind_not_found.
  - apply contains_app.
  - simpl. by intros [[=]|[]%elem_of_nil]%elem_of_cons.
Qed.

(** C2, as amended.  On a response with status 200 whose body is
    read: [Resolve] fails with a [DecodeError] when the body is not
    one JSON value, and when the value does not fit the envelope,
    that is when the top-level value, a data member of it or a yaml
    member of such a data member is of another JSON type than object,
    object and string (null apart); every other body is accepted, and
    an object that gives no yaml string, data or data.yaml being
    absent, yields a resource with empty content. *)
Theorem Resolve_decode (r : Resolver) (ctx : Context) (net : Network)
  (params : list Param) (m : gmap string string) (resp : Response) :
  enabled ctx = true →
  Resolve_params ctx params = Ok m →
  answer net (hub_url r m) = Ok resp →
  StatusCode resp = StatusOK →
  read_err (Body resp) = None →
  let body := content (Body resp) in
  let tr := [EvGet (hub_url r m); EvReadAll; EvClose] in
  (json.parse body = None
   ∨ (∃ v, json.parse body = Some v ∧ fits_hubResponse v = false) →
   ∃ e, Resolve r ctx net params = (tr, Err e)
        ∧ error_kind e = Some DecodeError)
  ∧ (∀ v, json.parse body = Some v → fits_hubResponse v = true →
     ∃ rr, Resolve r ctx net params = (tr, Ok rr)
           ∧ (yaml_absent v = true → Data rr = [])).
Proof.
  intros Hon Em Ea Hs Hr body tr.
  rewrite Resolve_enabled, Em by done.
  rewrite (Resolve_fetch_decode r net m resp Ea Hs Hr). fold body tr.
  pose proof (Unmarshal_error body {| Data_ := {| YAML := EmptyString |} |}) as Hu.
  split.
  - intros [Ep|(v & Ep & Hv)]; rewrite Ep in Hu; [|rewrite Hv in Hu].
    + destruct (Unmarshal body _) as [hr err]. simpl in Hu. subst err.
      eexists. split; [reflexivity|]. apply error_kind_decode.
    + destruct Hu as [k Hu].
      destruct (Unmarshal body _) as [hr err]. simpl in Hu. subst err.
      eexists. split; [reflexivity|]. apply error_kind_decode.
  - intros v Ep Hv. rewrite Ep, Hv in Hu.
    destruct (Unmarshal body _) as [hr err] eqn:Eu. simpl in Hu. subst err.
    eexists. split; [reflexivity|].
    intros Habs. simpl.
    unfold Unmarshal in Eu. rewrite Ep in Eu.
    destruct v as [| | | | |members]; try done. simpl in Eu.
    pose proof (object_hubResponse_untouched members
      {| Data_ := {| YAML := EmptyString |} |} None Habs) as Hun.
    rewrite Eu in Hun. simpl in Hun. by subst hr.
Qed.

(** C4.  On a response with status 200 whose body is the envelope
    around a string [s], [Resolve] returns a resource whose [Data] is
    the bytes of [s], whose [Annotations] and [Source] are absent, and
    which holds nothing else: a resource is determined by what its
    three accessors return. *)
Theorem Resolve_envelope (r : Resolver) (ctx : Context) (net : Network)
  (params : list Param) (m : gmap string string) (resp : Response) (s : string) :
  enabled ctx = true →
  Resolve_params ctx params = Ok m →
  answer net (hub_url r m) = Ok resp →
  StatusCode resp = StatusOK →
  read_err (Body resp) = None →
  json.parse (content (Body resp)) = Some (envelope s) →
  ∃ rr, Resolve r ctx net params
        = ([EvGet (hub_url r m); EvReadAll; EvClose], Ok rr)
        ∧ Data rr = bytes_of_string s
        ∧ Annotations rr = None
        ∧ Source rr = None
        ∧ ∀ rr' : ResolvedHubResource,
            Data rr' = Data rr → Annotations rr' = Annotations rr →
            Source rr' = Source rr → rr' = rr.
Proof.
  intros Hon Em Ea Hs Hr Ep.
  rewrite Resolve_enabled, Em by done.
  rewrite (Resolve_fetch_decode r net m resp Ea Hs Hr).
  rewrite (Unmarshal_envelope _ s _ Ep).
  eexists. split; [reflexivity|]. simpl. repeat split.
  intros rr' Hd _ _. by apply ResolvedHubResource_ext.
Qed.

(** X1.  After a response with status 200 the body is closed, and
    closing it is the last thing [Resolve] does, whatever reading and
    decoding give. *)
Lemma Resolve_closes_body_after_200 (r : Resolver) (ctx : Context)
  (net : Network) (params : list Param) (m : gmap string string)
  (resp : Response) :
  enabled ctx = true →
  Resolve_params ctx params = Ok m →
  answer net (hub_url r m) = Ok resp →
  StatusCode resp = StatusOK →
  trace (Resolve r ctx net params) = [EvGet (hub_url r m); EvReadAll; EvClose].
Proof.
  intros Hon Em Ea Hs. rewrite Resolve_enabled, Em by done.
  destruct (read_err (Body resp)) as [e|] eqn:Hr.
  - by rewrite (Resolve_fetch_read_error r net m resp e Ea Hs Hr).
  - by rewrite (Resolve_fetch_decode r net m resp Ea Hs Hr).
Qed.

(** After a response with another status the body is left open. *)
Lemma Resolve_leaves_body_open (r : Resolver) (ctx : Context)
  (net : Network) (params : list Param) (m : gmap string string)
  (resp : Response) :
  enabled ctx = true →
  Resolve_params ctx params = Ok m →
  answer net (hub_url r m) = Ok resp →
  StatusCode resp ≠ StatusOK →
  EvClose ∉ trace (Resolve r ctx net params).
Proof.
  intros Hon Em Ea Hs. rewrite Resolve_enabled, Em by done.
  rewrite (Resolve_fetch_not_found r net m resp Ea Hs). simpl.
  by intros [[=]|[]%elem_of_nil]%elem_of_cons.
Qed.
End FetchClaims.

(* ===================================================================== *)
(** * The claims at concrete requests *)
(* ===================================================================== *)

(** The example of the specification: the request name git-clone,
    version 0.9, kind task under the default catalog Tekton. *)
Example merged_example_ok :
  @Resolve_params example_keys ctx_catalog full_request = Ok merged_example.
Proof. vm_compute. reflexivity. Qed.

Example merged_example_url :
  @hub_url example_lib tekton_hub merged_example = example_url.
Proof. vm_compute. reflexivity. Qed.

Example task_envelope_parses :
  json.parse (bytes_of_string task_envelope) = Some (envelope task_yaml).
Proof. vm_compute. reflexivity. Qed.

Example full_request_resolves :
  @Resolve example_lib example_keys tekton_hub ctx_catalog
    (hub_answering 200 task_envelope) full_request
  = ([EvGet example_url; EvReadAll; EvClose],
     Ok {| Content := bytes_of_string task_yaml |}).
Proof. vm_compute. reflexivity. Qed.



(** C2 fails as stated: the body [{}] is well-formed JSON in which
    data.yaml is absent, and [Resolve] returns a resource with empty
    content. *)
Lemma Resolve_accepts_empty_object :
  json.parse (bytes_of_string "{}") = Some (json.Object [])
  ∧ json.Object [] ≠ envelope EmptyString
  ∧ @Resolve example_lib example_keys tekton_hub ctx_catalog
      (hub_answering 200 "{}") full_request
    = ([EvGet example_url; EvReadAll; EvClose], Ok {| Content := [] |}).
Proof.
  split; [vm_compute; reflexivity|]. split; [discriminate|].
  vm_compute; reflexivity.
Qed.

Lemma Resolve_decode_witness :
  (∃ e, @Resolve example_lib example_keys tekton_hub ctx_catalog
          (hub_answering 200 (dq "{'data':3}")) full_request
        = ([EvGet example_url; EvReadAll; EvClose], Err e)
        ∧ error_kind e = Some DecodeError)
  ∧ (∃ rr, @Resolve example_lib example_keys tekton_hub ctx_catalog
             (hub_answering 200 (dq "{'data':{}}")) full_request
           = ([EvGet example_url; EvReadAll; EvClose], Ok rr)
           ∧ Data rr = []).
Proof.
  split.
  - destruct (@Resolve_decode example_lib example_keys tekton_hub ctx_catalog
      (hub_answering 200 (dq "{'data':3}")) full_request merged_example _
      eq_refl merged_example_ok eq_refl eq_refl eq_refl) as [Hbad _].
    rewrite merged_example_url in Hbad. apply Hbad.
    right. eexists. split; vm_compute; reflexivity.
  - destruct (@Resolve_decode example_lib example_keys tekton_hub ctx_catalog
      (hub_answering 200 (dq "{'data':{}}")) full_request merged_example _
      eq_refl merged_example_ok eq_refl eq_refl eq_refl) as [_ Hgood].
    rewrite merged_example_url in Hgood.
    destruct (Hgood (json.Object [("data", json.Object [])])) as (rr & Hr & Hd);
      [vm_compute; reflexivity | reflexivity |].
    exists rr. split; [exact Hr | apply Hd; reflexivity].
Defined.

(** C3 at a concrete request: the hub answers 404, [Resolve] returns
    after the request and the body is never closed. *)
Theorem body_left_open_on_404 :
  @Resolve example_lib example_keys tekton_hub ctx_catalog
    (hub_answering 404 "not found") full_request
  = ([EvGet example_url], Err (errorString (msgNotFound example_url)))
  ∧ EvClose ∉ trace (@Resolve example_lib example_keys tekton_hub ctx_catalog
                       (hub_answering 404 "not found") full_request).
Proof.
  assert (@Resolve example_lib example_keys tekton_hub ctx_catalog
            (hub_answering 404 "not found") full_request
          = ([EvGet example_url], Err (errorString (msgNotFound example_url))))
    as E by (vm_compute; reflexivity).
  split; [exact E|]. rewrite E. simpl.
  by intros [[=]|[]%elem_of_nil]%elem_of_cons.
Qed.

Lemma Resolve_envelope_witness :
  ∃ rr, @Resolve example_lib example_keys tekton_hub ctx_catalog
          (hub_answering 200 task_envelope) full_request
        = ([EvGet example_url; EvReadAll; EvClose], Ok rr)
        ∧ Data rr = bytes_of_string task_yaml
        ∧ Annotations rr = None
        ∧ Source rr = None.
Proof.
  destruct (@Resolve_envelope example_lib example_keys tekton_hub ctx_catalog
    (hub_answering 200 task_envelope) full_request merged_example _ task_yaml
    eq_refl merged_example_ok eq_refl eq_refl eq_refl task_envelope_parses)
    as (rr & Hr & Hd & Ha & Hs & _).
  rewrite merged_example_url in Hr. by exists rr.
Defined.

Lemma Resolve_builds_url_witness :
  ∃ t res, @Resolve example_lib example_keys tekton_hub ctx_catalog
             (hub_answering 200 task_envelope) full_request
           = (EvGet example_url :: t, res).
Proof.
  destruct (@Resolve_builds_url example_lib example_keys tekton_hub ctx_catalog
    (hub_answering 200 task_envelope) full_request
    "Tekton" "task" "git-clone" "0.9"
    eq_refl eq_refl eq_refl eq_refl eq_refl eq_refl) as (m & t & res & _ & _ & Hr).
  exists t, res. exact Hr.
Defined.

Lemma Resolve_status_not_ok_witness :
  @Resolve example_lib example_keys tekton_hub ctx_catalog
    (hub_answering 404 "not found") full_request
  = ([EvGet example_url], Err (errorString (msgNotFound example_url)))
  ∧ contains (msgNotFound example_url) example_url = true.
Proof.
  destruct (@Resolve_status_not_ok example_lib example_keys tekton_hub ctx_catalog
    (hub_answering 404 "not found") full_request merged_example _
    eq_refl merged_example_ok eq_refl ltac:(discriminate))
    as (Hr & _ & Hc & _).
  rewrite merged_example_url in Hr, Hc. exact (conj Hr Hc).
Defined.

(** C7 fails as stated: with neither catalog nor kind at hand, the
    error [Resolve] returns is the one for the catalog, and its text
    does not mention kind. *)
Lemma missing_kind_reported_as_catalog :
  supplied ParamKind no_params = None
  ∧ GetResolverConfigFromContext ctx_bare !! @ConfigKind example_keys = None
  ∧ @Resolve example_lib example_keys tekton_hub ctx_bare
      (hub_answering 200 task_envelope) no_params
    = ([], Err (errorString msgDefaultCatalog))
  ∧ mentions msgDefaultCatalog ParamKind = false.
Proof. repeat split; vm_compute; reflexivity. Qed.

Lemma missing_default_fails_witness :
  @Resolve example_lib example_keys tekton_hub ctx_bare
    (hub_answering 200 task_envelope) full_request
  = ([], Err (errorString msgDefaultCatalog))
  ∧ @Resolve example_lib example_keys tekton_hub ctx_catalog
      (hub_answering 200 task_envelope)
      [param "name" "git-clone"; param "version" "0.9"]
    = ([], Err (errorString msgDefaultKind)).
Proof.
  split.
  - destruct (@missing_default_fails example_lib example_keys tekton_hub ctx_bare
      (hub_answering 200 task_envelope) full_request eq_refl) as (Hc & _).
    apply Hc; vm_compute; reflexivity.
  - destruct (@missing_default_fails example_lib example_keys tekton_hub ctx_catalog
      (hub_answering 200 task_envelope)
      [param "name" "git-clone"; param "version" "0.9"] eq_refl) as (_ & Hk & _).
    apply Hk; vm_compute; reflexivity.
Defined.

(** C8 fails as stated: a request whose only parameter is an invalid
    kind is turned down by [ValidateParams] for its missing name, a
    [MissingParameterError], and by [Resolve], where no catalog is at
    hand, for the missing default catalog, a [MissingDefaultError]. *)
Lemma invalid_kind_reported_as_missing :
  supplied ParamKind only_bogus_kind = Some "bogus"
  ∧ valid_kind "bogus" = false
  ∧ (∃ e, ValidateParams tekton_hub ctx_bare only_bogus_kind = Some e
          ∧ error_kind e = Some MissingParameterError
          ∧ error_kind e ≠ Some InvalidParameterError)
  ∧ (∃ e, @Resolve example_lib example_keys tekton_hub ctx_bare
            (hub_answering 200 task_envelope) only_bogus_kind = ([], Err e)
          ∧ error_kind e = Some MissingDefaultError
          ∧ error_kind e ≠ Some InvalidParameterError).
Proof.
  split; [reflexivity|]. split; [reflexivity|]. split.
  - exists (errorString msgNameParam).
    split; [vm_compute; reflexivity|]. split; [reflexivity|discriminate].
  - exists (errorString msgDefaultCatalog).
    split; [vm_compute; reflexivity|]. split; [reflexivity|discriminate].
Qed.

Lemma invalid_kind_fails_witness :
  @Resolve example_lib example_keys tekton_hub ctx_catalog
    (hub_answering 200 task_envelope) bogus_kind
  = ([], Err (errorString msgKindParam))
  ∧ ValidateParams tekton_hub ctx_catalog bogus_kind
    = Some (errorString msgKindParam).
Proof.
  destruct (@invalid_kind_fails example_lib example_keys tekton_hub ctx_catalog
    (hub_answering 200 task_envelope) bogus_kind "bogus" eq_refl eq_refl)
    as (Hr & Hv & _).
  split; [apply Hr | apply Hv]; vm_compute; reflexivity.
Defined.

(* ===================================================================== *)
(** * The envelope on the wire *)
(* ===================================================================== *)

Lemma list_ascii_of_string_app (a b : string) :
  list_ascii_of_string (a +:+ b) = list_ascii_of_string a ++ list_ascii_of_string b.
Proof.
  induction a as [|c a IH]; [done|].
  change (c :: list_ascii_of_string (a +:+ b)
          = c :: (list_ascii_of_string a ++ list_ascii_of_string b)).
  by f_equal.
Qed.

Lemma scan_all_app (s : json.scanner) (l1 l2 : list ascii) :
  json.scan_all s (l1 ++ l2)
  = match json.scan_all s l1 with
    | Some s' => json.scan_all s' l2
    | None => None
    end.
Proof.
  revert s. induction l1 as [|c l1 IH]; intros s; simpl; [done|].
  destruct (json.scan_step s c); [apply IH | done].
Qed.

Lemma plain_char_spec (c : ascii) :
  plain_char c = true →
  Ascii.eqb c json.quote = false ∧ Ascii.eqb c "\" = false
  ∧ (json.code c <? 32)%N = false ∧ (json.code c <? 128)%N = true.
Proof.
  unfold plain_char, json.code.
  intros [[[Hlo Hhi]%andb_true_iff Hq%negb_true_iff]%andb_true_iff
          Hb%negb_true_iff]%andb_true_iff.
  repeat split; try done.
  apply N.ltb_ge. by apply N.leb_le.
Qed.

Lemma plain_forallb (s : string) :
  plain s = forallb plain_char (list_ascii_of_string s).
Proof. induction s as [|c s IH]; simpl; [done | by rewrite IH]. Qed.

(** Plain text inside a string literal is read byte by byte... *)
Lemma scan_plain (raw : list ascii) (ps : list json.frame) (l : list ascii) :
  forallb plain_char l = true →
  json.scan_all {| json.step := json.atInString raw; json.parseState := ps |} l
  = Some {| json.step := json.atInString (rev l ++ raw); json.parseState := ps |}.
Proof.
  revert raw. induction l as [|c l IH]; intros raw; simpl; [done|].
  intros [Hc Hl]%andb_true_iff.
  destruct (plain_char_spec c Hc) as (Hq & Hb & Hlo & _).
  unfold json.scan_step, json.stateInString. simpl.
  rewrite Hq, Hb, Hlo. rewrite (IH (c :: raw) Hl).
  by rewrite <- app_assoc.
Qed.

(** ... and stands for itself. *)
Lemma unquote_plain (l : list ascii) :
  forallb plain_char l = true → json.unquote l = Some l.
Proof.
  induction l as [|c l IH]; simpl; [done|].
  intros [Hc Hl]%andb_true_iff.
  destruct (plain_char_spec c Hc) as (Hq & Hb & Hlo & Hhi).
  rewrite Hb, Hq, Hlo, Hhi. simpl. by rewrite (IH Hl).
Qed.

(** The bytes [{"data":{"yaml":"s"}}], for a plain text [s], are the
    envelope around [s]. *)
Lemma plain_envelope_parses (s : string) :
  plain s = true →
  json.parse (bytes_of_string (envelope_text s)) = Some (envelope s).
Proof.
  intros Hs. rewrite plain_forallb in Hs.
  unfold json.parse. rewrite string_of_bytes_of_string.
  assert (list_ascii_of_string (envelope_text s)
          = list_ascii_of_string
              ("{" +:+ String json.quote "data" +:+ String json.quote ":{"
               +:+ String json.quote "yaml" +:+ String json.quote ":"
               +:+ String json.quote EmptyString)
            ++ list_ascii_of_string s
            ++ [json.quote; "}"; "}"]%char) as ->.
  { unfold envelope_text.
    change (String json.quote s) with (String json.quote EmptyString +:+ s).
    rewrite !list_ascii_of_string_app, <- !app_assoc. reflexivity. }
  rewrite scan_all_app.
  change (json.scan_all json.reset (list_ascii_of_string _))
    with (Some {| json.step := json.atInString [];
                  json.parseState :=
                    [json.parseObjectValue [] "yaml"; json.parseObjectValue [] "data"] |}).
  cbv beta iota.
  rewrite scan_all_app, (scan_plain _ _ _ Hs).
  rewrite app_nil_r.
  cbn [json.scan_all json.scan_step json.step json.parseState].
  unfold json.stateInString. rewrite rev_involutive, (unquote_plain _ Hs).
  rewrite string_of_list_ascii_of_string. reflexivity.
Qed.

(** X2.  The envelope as bytes: on a response with status 200 whose
    body is the text [{"data":{"yaml":"s"}}] for a plain [s], the
    content of the resource is the bytes of [s]. *)
Lemma Resolve_plain_envelope `{GoLib} `{ConfigKeys} (r : Resolver) (ctx : Context)
  (net : Network) (params : list Param) (m : gmap string string) (resp : Response)
  (s : string) :
  enabled ctx = true →
  Resolve_params ctx params = Ok m →
  answer net (hub_url r m) = Ok resp →
  StatusCode resp = StatusOK →
  Body resp = {| content := bytes_of_string (envelope_text s); read_err := None |} →
  plain s = true →
  Resolve r ctx net params
  = ([EvGet (hub_url r m); EvReadAll; EvClose],
     Ok {| Content := bytes_of_string s |}).
Proof.
  intros Hon Em Ea Hs Hb Hp.
  rewrite Resolve_enabled, Em by done.
  rewrite (Resolve_fetch_decode r net m resp Ea Hs) by (by rewrite Hb).
  rewrite Hb. simpl.
  by rewrite (Unmarshal_envelope _ s _ (plain_envelope_parses s Hp)).
Qed.

(** The values go into the URL as they are: nothing is escaped. *)
Example url_is_not_escaped :
  trace (@Resolve example_lib example_keys tekton_hub ctx_catalog
           (hub_answering 404 "not found")
           [param "name" "a/../b?c=d"; param "version" "%41 #"; param "kind" "task"])
  = [EvGet "https://api.hub.tekton.dev/v1/resource/Tekton/task/a/../b?c=d/%41 #/yaml"].
Proof. vm_compute. reflexivity. Qed.

(** A member named data in another case is the field; later members
    overwrite earlier ones, and [null] leaves the field as it is. *)
Example envelope_case_and_order :
  Unmarshal
    (bytes_of_string (dq "{'data':{'yaml':'a'},'DATA':{'Yaml':'b','yaml':null},'x':[1,2]}"))
    {| Data_ := {| YAML := EmptyString |} |}
  = ({| Data_ := {| YAML := "b" |} |}, None).
Proof. vm_compute. reflexivity. Qed.

Example trailing_comma_is_a_syntax_error :
  Unmarshal (bytes_of_string (dq "{'data':{'yaml':'a'},}"))
    {| Data_ := {| YAML := EmptyString |} |}
  = ({| Data_ := {| YAML := EmptyString |} |}, Some SyntaxError).
Proof. vm_compute. reflexivity. Qed.

(* ===================================================================== *)
(** * What a request is to the resolver *)
(* ===================================================================== *)

(** X3.  With the resolver enabled, [ValidateParams] accepts a request
    exactly when it supplies name and version and its kind, if it
    supplies one, is task or pipeline; catalog and every other parameter
    play no part. *)
Theorem ValidateParams_accepts_iff (r : Resolver) (ctx : Context)
  (params : list Param) :
  enabled ctx = true →
  ValidateParams r ctx params = None
  ↔ is_Some (supplied ParamName params)
    ∧ is_Some (supplied ParamVersion params)
    ∧ ∀ k, supplied ParamKind params = Some k → k = "task" ∨ k = "pipeline".
Proof.
  intros Hon. rewrite ValidateParams_spec by done.
  destruct (supplied ParamName params) as [n|].
  2:{ split; [done | by intros [[? [=]] _]]. }
  destruct (supplied ParamVersion params) as [v|].
  2:{ split; [done | by intros (_ & [? [=]] & _)]. }
  destruct (supplied ParamKind params) as [k|].
  - destruct (valid_kind k) eqn:Ek.
    + apply valid_kind_spec in Ek.
      split; [|done]. intros _. repeat split; eauto. by intros ? [= <-].
    + split; [done|]. intros (_ & _ & Hk).
      specialize (Hk k eq_refl). apply valid_kind_spec in Hk. congruence.
  - split; [|done]. intros _. repeat split; eauto. done.
Qed.

Lemma ValidateParams_accepts_iff_witness :
  enabled ctx_bare = true
  ∧ ValidateParams tekton_hub ctx_bare full_request = None
  ∧ is_Some (supplied ParamName full_request).
Proof.
  pose proof (ValidateParams_accepts_iff tekton_hub ctx_bare full_request eq_refl)
    as [Hto _].
  split; [reflexivity|]. split; [vm_compute; reflexivity|].
  apply Hto. vm_compute. reflexivity.
Defined.

(** X4.  [ValidateParams] reads a request through three things only:
    whether name is supplied, whether version is supplied, and the kind
    supplied, each as the last parameter of that name gives it.  Two
    requests that agree on them are validated alike, whatever the order
    of their parameters, their repeated names and their other
    parameters. *)
Theorem ValidateParams_reads_three_names (r : Resolver) (ctx : Context)
  (params params' : list Param) :
  (supplied ParamName params = None ↔ supplied ParamName params' = None) →
  (supplied ParamVersion params = None ↔ supplied ParamVersion params' = None) →
  supplied ParamKind params = supplied ParamKind params' →
  ValidateParams r ctx params = ValidateParams r ctx params'.
Proof.
  intros Hn Hv Hk.
  destruct (enabled ctx) eqn:Hon.
  - rewrite !ValidateParams_spec by done. rewrite <- Hk.
    destruct (supplied ParamName params), (supplied ParamName params');
      try done; try (by destruct Hn as [Hn1 Hn2]; (discriminate Hn1 || discriminate Hn2)).
    destruct (supplied ParamVersion params), (supplied ParamVersion params');
      try done; by destruct Hv as [Hv1 Hv2]; (discriminate Hv1 || discriminate Hv2).
  - unfold ValidateParams. by rewrite isDisabled_enabled, Hon.
Qed.

Lemma ValidateParams_reads_three_names_witness :
  supplied ParamKind noisy_request = supplied ParamKind full_request
  ∧ ValidateParams tekton_hub ctx_bare noisy_request
    = ValidateParams tekton_hub ctx_bare full_request.
Proof.
  split; [reflexivity|].
  apply ValidateParams_reads_three_names; [split; discriminate.. | reflexivity].
Defined.

Section Requests.
Context `{GoLib} `{ConfigKeys}.

(** The second half of [Resolve] reads the merged parameters through the
    URL only. *)
Lemma Resolve_fetch_url (r : Resolver) (net : Network) (m m' : gmap string string) :
  hub_url r m = hub_url r m' → Resolve_fetch r net m = Resolve_fetch r net m'.
Proof. intros E. unfold Resolve_fetch. cbv zeta. by rewrite E. Qed.

Lemma hub_url_lookup (r : Resolver) (m m' : gmap string string) :
  m !! ParamCatalog = m' !! ParamCatalog →
  m !! ParamKind = m' !! ParamKind →
  m !! ParamName = m' !! ParamName →
  m !! ParamVersion = m' !! ParamVersion →
  hub_url r m = hub_url r m'.
Proof. intros Ec Ek En Ev. unfold hub_url, index. by rewrite Ec, Ek, En, Ev. Qed.

(** The first action of the second half is the request. *)
Lemma Resolve_fetch_head (r : Resolver) (net : Network) (m : gmap string string) :
  ∃ t res, Resolve_fetch r net m = (EvGet (hub_url r m) :: t, res).
Proof.
  unfold Resolve_fetch, http_Get. cbv zeta.
  destruct (answer net _) as [resp|e]; simpl; [|by eauto].
  destruct (negb _); simpl; [by eauto|].
  destruct (defer _ _) as [t res] eqn:Ed. unfold defer in Ed.
  destruct (bind _ _) as [t0 r0]. injection Ed as <- <-. by eauto.
Qed.

(** X5.  [Resolve] reads a request through the values it supplies for
    catalog, kind, name and version only, each as the last parameter of
    that name gives it: two requests that agree on the four are resolved
    alike, actions and outcome, whatever the order of their parameters,
    their repeated names and their other parameters. *)
Theorem Resolve_reads_four_names (r : Resolver) (ctx : Context) (net : Network)
  (params params' : list Param) :
  supplied ParamCatalog params = supplied ParamCatalog params' →
  supplied ParamKind params = supplied ParamKind params' →
  supplied ParamName params = supplied ParamName params' →
  supplied ParamVersion params = supplied ParamVersion params' →
  Resolve r ctx net params = Resolve r ctx net params'.
Proof.
  intros Ec Ek En Ev. unfold Resolve.
  destruct (isDisabled r ctx); [done|].
  rewrite !Resolve_params_spec. cbv zeta. unfold effective.
  rewrite <- Ec, <- Ek.
  destruct (match supplied ParamCatalog params with
            | Some v => Some v
            | None => GetResolverConfigFromContext ctx !! ConfigCatalog
            end) as [c|]; [|done].
  destruct (match supplied ParamKind params with
            | Some v => Some v
            | None => GetResolverConfigFromContext ctx !! ConfigKind
            end) as [k|]; [|done].
  destruct (valid_kind k); [|done].
  apply Resolve_fetch_url, hub_url_lookup.
  - by rewrite !(lookup_insert_ne _ ParamKind), !lookup_insert_eq.
  - by rewrite !lookup_insert_eq.
  - rewrite !(lookup_insert_ne _ _ ParamName) by done.
    rewrite !collect_lookup. exact En.
  - rewrite !(lookup_insert_ne _ _ ParamVersion) by done.
    rewrite !collect_lookup. exact Ev.
Qed.

(** X6.  A request that supplies both catalog and kind is resolved
    without the installation configuration: under two contexts with the
    flag on, [Resolve] does and returns the same, whatever their
    configurations hold. *)
Theorem Resolve_request_overrides_configuration (r : Resolver)
  (ctx ctx' : Context) (net : Network) (params : list Param) (c k : string) :
  enabled ctx = true →
  enabled ctx' = true →
  supplied ParamCatalog params = Some c →
  supplied ParamKind params = Some k →
  Resolve r ctx net params = Resolve r ctx' net params.
Proof.
  intros Hon Hon' Hc Hk. rewrite !Resolve_enabled by done.
  rewrite !Resolve_params_spec. unfold effective. by rewrite Hc, Hk.
Qed.

(** X7.  Validation and resolution in sequence: a request that
    [ValidateParams] accepts, under an installation that has a default
    catalog and a default kind that is task or pipeline, gets as far as
    the hub; the URL requested is made of the request's catalog and kind
    where it supplies them, of the defaults where it does not, and of
    the request's name and version. *)
Theorem validated_request_reaches_hub (r : Resolver) (ctx : Context)
  (net : Network) (params : list Param) (dc dk : string) :
  enabled ctx = true →
  ValidateParams r ctx params = None →
  GetResolverConfigFromContext ctx !! ConfigCatalog = Some dc →
  GetResolverConfigFromContext ctx !! ConfigKind = Some dk →
  valid_kind dk = true →
  ∃ n v t res,
    supplied ParamName params = Some n
    ∧ supplied ParamVersion params = Some v
    ∧ Resolve r ctx net params
      = (EvGet (Sprintf (HubURL r)
                  [default dc (supplied ParamCatalog params);
                   default dk (supplied ParamKind params); n; v]) :: t, res).
Proof.
  intros Hon Hval Hdc Hdk Hvk.
  rewrite ValidateParams_spec in Hval by done.
  destruct (supplied ParamName params) as [n|] eqn:En; [|done].
  destruct (supplied ParamVersion params) as [v|] eqn:Ev; [|done].
  assert (valid_kind (default dk (supplied ParamKind params)) = true) as Hk.
  { destruct (supplied ParamKind params) as [k|]; simpl; [|done].
    by destruct (valid_kind k). }
  destruct (Resolve_params ctx params) as [m|e] eqn:Em; cycle 1.
  { rewrite Resolve_params_spec in Em. unfold effective in Em.
    rewrite Hdc, Hdk in Em.
    destruct (supplied ParamCatalog params), (supplied ParamKind params);
      simpl in Hk; by rewrite Hk in Em. }
  destruct (Resolve_params_lookup ctx params m Em) as (Mc & Mk & Mn & Mv & _).
  unfold effective in Mc, Mk. rewrite Hdc in Mc. rewrite Hdk in Mk.
  destruct (Resolve_fetch_head r net m) as (t & res & Hf).
  exists n, v, t, res. split; [done|]. split; [done|].
  rewrite Resolve_enabled, Em, Hf by done.
  do 3 f_equal. unfold hub_url, index. rewrite Mc, Mk, Mn, Mv, En, Ev.
  by destruct (supplied ParamCatalog params), (supplied ParamKind params).
Qed.

(** X8.  A request that [ValidateParams] accepts can still fail in
    [Resolve] before any request to the hub, and then the installation
    is the reason: the request has no catalog and there is no default
    catalog; or it has no kind and there is no default kind; or it has
    no kind and the default kind is neither task nor pipeline. *)
Theorem validated_request_fails_for_installation (r : Resolver) (ctx : Context)
  (net : Network) (params : list Param) (e : error) :
  enabled ctx = true →
  ValidateParams r ctx params = None →
  Resolve r ctx net params = ([], Err e) →
  let conf := GetResolverConfigFromContext ctx in
  (supplied ParamCatalog params = None ∧ conf !! ConfigCatalog = None
   ∧ e = errorString msgDefaultCatalog)
  ∨ (supplied ParamKind params = None ∧ conf !! ConfigKind = None
     ∧ e = errorString msgDefaultKind)
  ∨ (supplied ParamKind params = None
     ∧ (∃ dk, conf !! ConfigKind = Some dk ∧ valid_kind dk = false)
     ∧ e = errorString msgKindParam).
Proof.
  intros Hon Hval Hres conf.
  rewrite ValidateParams_spec in Hval by done.
  destruct (supplied ParamName params) as [n|]; [|done].
  destruct (supplied ParamVersion params) as [v|]; [|done].
  rewrite Resolve_enabled in Hres by done.
  destruct (Resolve_params ctx params) as [m|e'] eqn:Em.
  { destruct (Resolve_fetch_head r net m) as (t & res & Hf).
    rewrite Hf in Hres. discriminate. }
  injection Hres as ->.
  rewrite Resolve_params_spec in Em. unfold effective in Em. fold conf in Em.
  destruct (supplied ParamCatalog params) as [c|].
  - destruct (supplied ParamKind params) as [k|].
    + destruct (valid_kind k); done.
    + destruct (conf !! ConfigKind) as [dk|] eqn:Edk.
      * destruct (valid_kind dk) eqn:Evk; [done|].
        injection Em as <-. right. right. eauto.
      * injection Em as <-. right. left. auto.
  - destruct (conf !! ConfigCatalog) as [dc|].
    + destruct (supplied ParamKind params) as [k|].
      * destruct (valid_kind k); done.
      * destruct (conf !! ConfigKind) as [dk|] eqn:Edk.
        -- destruct (valid_kind dk) eqn:Evk; [done|].
           injection Em as <-. right. right. eauto.
        -- injection Em as <-. right. left. auto.
    + injection Em as <-. left. auto.
Qed.
End Requests.

Lemma Resolve_reads_four_names_witness :
  supplied ParamCatalog noisy_request = supplied ParamCatalog full_request
  ∧ supplied ParamKind noisy_request = supplied ParamKind full_request
  ∧ @Resolve example_lib example_keys tekton_hub ctx_catalog
      (hub_answering 200 task_envelope) noisy_request
    = @Resolve example_lib example_keys tekton_hub ctx_catalog
        (hub_answering 200 task_envelope) full_request.
Proof.
  split; [reflexivity|]. split; [reflexivity|].
  exact (@Resolve_reads_four_names example_lib example_keys tekton_hub ctx_catalog
    (hub_answering 200 task_envelope) noisy_request full_request
    eq_refl eq_refl eq_refl eq_refl).
Defined.

Lemma Resolve_request_overrides_configuration_witness :
  supplied ParamCatalog full_request_with_catalog = Some "Tekton"
  ∧ supplied ParamKind full_request_with_catalog = Some "task"
  ∧ @Resolve example_lib example_keys tekton_hub ctx_bare
      (hub_answering 200 task_envelope) full_request_with_catalog
    = @Resolve example_lib example_keys tekton_hub
        (context true [("default-catalog", "other"); ("default-kind", "bogus")])
        (hub_answering 200 task_envelope) full_request_with_catalog.
Proof.
  split; [reflexivity|]. split; [reflexivity|].
  exact (@Resolve_request_overrides_configuration example_lib example_keys
    tekton_hub ctx_bare
    (context true [("default-catalog", "other"); ("default-kind", "bogus")])
    (hub_answering 200 task_envelope) full_request_with_catalog
    "Tekton" "task" eq_refl eq_refl eq_refl eq_refl).
Defined.

Lemma validated_request_reaches_hub_witness :
  ValidateParams tekton_hub ctx_defaults name_and_version = None
  ∧ ∃ t res, @Resolve example_lib example_keys tekton_hub ctx_defaults
               (hub_answering 200 task_envelope) name_and_version
             = (EvGet example_url :: t, res).
Proof.
  split; [vm_compute; reflexivity|].
  destruct (@validated_request_reaches_hub example_lib example_keys tekton_hub
    ctx_defaults (hub_answering 200 task_envelope) name_and_version
    "Tekton" "task" eq_refl ltac:(vm_compute; reflexivity)
    ltac:(vm_compute; reflexivity) ltac:(vm_compute; reflexivity) eq_refl)
    as (n & v & t & res & Hn & Hv & Hr).
  injection Hn as <-. injection Hv as <-. exists t, res. exact Hr.
Defined.

Lemma validated_request_fails_for_installation_witness :
  ValidateParams tekton_hub ctx_catalog name_and_version = None
  ∧ @Resolve example_lib example_keys tekton_hub ctx_catalog
      (hub_answering 200 task_envelope) name_and_version
    = ([], Err (errorString msgDefaultKind))
  ∧ supplied ParamKind name_and_version = None.
Proof.
  assert (ValidateParams tekton_hub ctx_catalog name_and_version = None) as Hv
    by (vm_compute; reflexivity).
  assert (@Resolve example_lib example_keys tekton_hub ctx_catalog
            (hub_answering 200 task_envelope) name_and_version
          = ([], Err (errorString msgDefaultKind))) as Hr
    by (vm_compute; reflexivity).
  split; [exact Hv|]. split; [exact Hr|].
  destruct (@validated_request_fails_for_installation example_lib example_keys
    tekton_hub ctx_catalog (hub_answering 200 task_envelope) name_and_version
    _ eq_refl Hv Hr) as [(_ & _ & [=])|[(Hk & _)|(Hk & _)]]; exact Hk.
Defined.

(* ===================================================================== *)
(** * What a call of Resolve does *)
(* ===================================================================== *)

Section Outcomes.
Context `{GoLib} `{ConfigKeys}.

(** The second half of [Resolve], case by case. *)
Lemma Resolve_fetch_cases (r : Resolver) (net : Network) (m : gmap string string) :
  let url := hub_url r m in
  let zero := {| Data_ := {| YAML := EmptyString |} |} in
  (∃ c, answer net url = Err c
        ∧ Resolve_fetch r net m
          = ([EvGet url], Err (Errorf_w "error requesting resource from hub: " c)))
  ∨ (∃ resp, answer net url = Ok resp ∧ StatusCode resp ≠ StatusOK
             ∧ Resolve_fetch r net m
               = ([EvGet url], Err (errorString (msgNotFound url))))
  ∨ (∃ resp c, answer net url = Ok resp ∧ StatusCode resp = StatusOK
               ∧ read_err (Body resp) = Some c
               ∧ Resolve_fetch r net m
                 = ([EvGet url; EvReadAll; EvClose],
                    Err (Errorf_w "error reading response body: " c)))
  ∨ (∃ resp hr c, answer net url = Ok resp ∧ StatusCode resp = StatusOK
                  ∧ read_err (Body resp) = None
                  ∧ Unmarshal (content (Body resp)) zero = (hr, Some c)
                  ∧ Resolve_fetch r net m
                    = ([EvGet url; EvReadAll; EvClose],
                       Err (Errorf_w "error unmarshalling json response: " c)))
  ∨ (∃ resp hr, answer net url = Ok resp ∧ StatusCode resp = StatusOK
                ∧ read_err (Body resp) = None
                ∧ Unmarshal (content (Body resp)) zero = (hr, None)
                ∧ Resolve_fetch r net m
                  = ([EvGet url; EvReadAll; EvClose],
                     Ok {| Content := bytes_of_string (YAML (Data_ hr)) |})).
Proof.
  intros url zero.
  destruct (answer net url) as [resp|c] eqn:Ea.
  2:{ left. exists c. split; [done|]. by apply Resolve_fetch_transport_error. }
  right. destruct (decide (StatusCode resp = StatusOK)) as [Hs|Hs].
  2:{ left. exists resp. repeat split; try done. by eapply Resolve_fetch_not_found. }
  right. destruct (read_err (Body resp)) as [c|] eqn:Hr.
  { left. exists resp, c. repeat split; try done.
    by apply (Resolve_fetch_read_error r net m resp c). }
  right. pose proof (Resolve_fetch_decode r net m resp Ea Hs Hr) as Hd.
  fold url zero in Hd.
  destruct (Unmarshal (content (Body resp)) zero) as [hr [c|]] eqn:Eu.
  - left. exists resp, hr, c. repeat split; done.
  - right. exists resp, hr. repeat split; done.
Qed.

(** X9.  Whatever the request, the context and the hub, a call of
    [Resolve] does one of three things: nothing; one request to the hub;
    or one request, then one reading of the body, then the closing of
    the body.  It never asks twice, never reads a body it did not
    request, and never reads a body without closing it. *)
Theorem Resolve_actions (r : Resolver) (ctx : Context) (net : Network)
  (params : list Param) :
  trace (Resolve r ctx net params) = []
  ∨ ∃ url, trace (Resolve r ctx net params) = [EvGet url]
           ∨ trace (Resolve r ctx net params) = [EvGet url; EvReadAll; EvClose].
Proof.
  unfold Resolve. destruct (isDisabled r ctx); [by left|].
  destruct (Resolve_params ctx params) as [m|e]; [|by left].
  right. exists (hub_url r m).
  destruct (Resolve_fetch_cases r net m)
    as [(? & _ & ->)|[(? & _ & _ & ->)|[(? & ? & _ & _ & _ & ->)
       |[(? & ? & ? & _ & _ & _ & _ & ->)|(? & ? & _ & _ & _ & _ & ->)]]]];
    simpl; auto.
Qed.

(** X10.  Every hub [Resolve] turns to is asked for a URL made of the
    template of the resolver and of four values: the effective catalog,
    an effective kind that is task or pipeline, and the name and version
    the request supplies, the empty string standing for one it does not
    supply.  No URL with another kind is ever requested. *)
Theorem Resolve_requested_url (r : Resolver) (ctx : Context) (net : Network)
  (params : list Param) (url : string) :
  EvGet url ∈ trace (Resolve r ctx net params) →
  let conf := GetResolverConfigFromContext ctx in
  ∃ c k, effective ParamCatalog ConfigCatalog params conf = Some c
         ∧ effective ParamKind ConfigKind params conf = Some k
         ∧ (k = "task" ∨ k = "pipeline")
         ∧ url = Sprintf (HubURL r)
                   [c; k; default EmptyString (supplied ParamName params);
                    default EmptyString (supplied ParamVersion params)].
Proof.
  intros Hin conf. revert Hin.
  unfold Resolve. destruct (isDisabled r ctx); simpl; [by intros ?%elem_of_nil|].
  destruct (Resolve_params ctx params) as [m|e] eqn:Em;
    simpl; [|by intros ?%elem_of_nil].
  intros Hin.
  assert (url = hub_url r m) as ->.
  { destruct (Resolve_fetch_cases r net m)
      as [(? & _ & E)|[(? & _ & _ & E)|[(? & ? & _ & _ & _ & E)
         |[(? & ? & ? & _ & _ & _ & _ & E)|(? & ? & _ & _ & _ & _ & E)]]]];
      rewrite E in Hin; simpl in Hin;
      repeat (apply elem_of_cons in Hin as [Hin|Hin]; [congruence|]);
      by apply elem_of_nil in Hin. }
  destruct (Resolve_params_lookup ctx params m Em) as (Mc & Mk & Mn & Mv & [c Hc] & Hk).
  fold conf in Mc, Mk.
  exists c, (index m ParamKind). unfold hub_url, index.
  rewrite <- Mc, <- Mk, <- Mn, <- Mv, Hc.
  destruct Hk as [-> | ->]; simpl; auto.
Qed.

(** X11.  When the hub cannot be reached, [Resolve] fails with an error
    that wraps the cause [http.Get] returned and puts its text after
    "error requesting resource from hub: ", a [FetchError]; the request
    is all it did. *)
Theorem Resolve_transport_failure (r : Resolver) (ctx : Context) (net : Network)
  (params : list Param) (m : gmap string string) (cause : error) :
  enabled ctx = true →
  Resolve_params ctx params = Ok m →
  answer net (hub_url r m) = Err cause →
  ∃ e, Resolve r ctx net params = ([EvGet (hub_url r m)], Err e)
       ∧ Unwrap e = Some cause
       ∧ Error e = "error requesting resource from hub: " +:+ Error cause
       ∧ error_kind e = Some FetchError.
Proof.
  intros Hon Em Ea. rewrite Resolve_enabled, Em by done.
  rewrite (Resolve_fetch_transport_error r net m cause Ea).
  eexists. split; [reflexivity|]. repeat split.
Qed.

(** X12.  When the hub answers with status 200 and the body cannot be
    read, [Resolve] fails with an error that wraps the cause
    [io.ReadAll] returned and puts its text after "error reading
    response body: "; the body is closed all the same, and nothing is
    decoded: the outcome does not depend on what the body holds. *)
Theorem Resolve_read_failure (r : Resolver) (ctx : Context) (net : Network)
  (params : list Param) (m : gmap string string) (resp : Response)
  (cause : error) :
  enabled ctx = true →
  Resolve_params ctx params = Ok m →
  answer net (hub_url r m) = Ok resp →
  StatusCode resp = StatusOK →
  read_err (Body resp) = Some cause →
  ∃ e, Resolve r ctx net params
       = ([EvGet (hub_url r m); EvReadAll; EvClose], Err e)
       ∧ Unwrap e = Some cause
       ∧ Error e = "error reading response body: " +:+ Error cause.
Proof.
  intros Hon Em Ea Hs Hr. rewrite Resolve_enabled, Em by done.
  rewrite (Resolve_fetch_read_error r net m resp cause Ea Hs Hr).
  eexists. split; [reflexivity|]. by split.
Qed.

(** X13.  [Resolve] returns a resource only when all of this holds: the
    flag is on, the parameters merge, the hub answers the URL with
    status 200, the body is read, and [json.Unmarshal] accepts it; the
    content is then the bytes of the yaml string decoded, and the
    actions are the request, the reading and the closing. *)
Theorem Resolve_success_only_if (r : Resolver) (ctx : Context) (net : Network)
  (params : list Param) (t : list event) (rr : ResolvedHubResource) :
  Resolve r ctx net params = (t, Ok rr) →
  enabled ctx = true
  ∧ ∃ m resp hr,
      Resolve_params ctx params = Ok m
      ∧ answer net (hub_url r m) = Ok resp
      ∧ StatusCode resp = StatusOK
      ∧ read_err (Body resp) = None
      ∧ Unmarshal (content (Body resp)) {| Data_ := {| YAML := EmptyString |} |}
        = (hr, None)
      ∧ Data rr = bytes_of_string (YAML (Data_ hr))
      ∧ t = [EvGet (hub_url r m); EvReadAll; EvClose].
Proof.
  unfold Resolve. rewrite isDisabled_enabled.
  destruct (enabled ctx); simpl; [|by intros [=]].
  destruct (Resolve_params ctx params) as [m|e]; [|by intros [=]].
  intros Hres. split; [done|]. exists m.
  destruct (Resolve_fetch_cases r net m)
    as [(? & _ & E)|[(? & _ & _ & E)|[(? & ? & _ & _ & _ & E)
       |[(? & ? & ? & _ & _ & _ & _ & E)|(resp & hr & Ea & Hs & Hr & Eu & E)]]]];
    rewrite E in Hres; try discriminate.
  injection Hres as <- <-. exists resp, hr. by repeat split.
Qed.

(** X14.  What a [DecodeError] wraps: the [SyntaxError] of
    [encoding/json] when the body is not one JSON value, and an
    [UnmarshalTypeError] when it is a value that does not fit, which
    names the JSON type of the value itself when that is neither an
    object nor [null]. *)
Theorem Resolve_decode_cause (r : Resolver) (ctx : Context) (net : Network)
  (params : list Param) (m : gmap string string) (resp : Response) :
  enabled ctx = true →
  Resolve_params ctx params = Ok m →
  answer net (hub_url r m) = Ok resp →
  StatusCode resp = StatusOK →
  read_err (Body resp) = None →
  let body := content (Body resp) in
  let failed cause :=
    Resolve r ctx net params
    = ([EvGet (hub_url r m); EvReadAll; EvClose],
       Err (Errorf_w "error unmarshalling json response: " cause)) in
  (json.parse body = None → failed SyntaxError)
  ∧ (∀ v, json.parse body = Some v → fits_hubResponse v = false →
     ∃ k, failed (UnmarshalTypeError k))
  ∧ (∀ v, json.parse body = Some v → v ≠ json.Null →
     (∀ members, v ≠ json.Object members) →
     failed (UnmarshalTypeError (json.kind_name v))).
Proof.
  intros Hon Em Ea Hs Hr body failed. unfold failed.
  rewrite Resolve_enabled, Em by done.
  rewrite (Resolve_fetch_decode r net m resp Ea Hs Hr). fold body.
  pose proof (Unmarshal_error body {| Data_ := {| YAML := EmptyString |} |}) as Hu.
  split; [|split].
  - intros Ep. rewrite Ep in Hu.
    destruct (Unmarshal body _) as [hr err]. simpl in Hu. by subst err.
  - intros v Ep Hv. rewrite Ep, Hv in Hu. destruct Hu as [k Hu]. exists k.
    destruct (Unmarshal body _) as [hr err]. simpl in Hu. by subst err.
  - intros v Ep Hnull Hobj. unfold Unmarshal. rewrite Ep.
    destruct v; simpl; try done. by destruct (Hobj members).
Qed.
End Outcomes.

Lemma Resolve_requested_url_witness :
  EvGet example_url
    ∈ trace (@Resolve example_lib example_keys tekton_hub ctx_catalog
               (hub_answering 404 "not found") full_request)
  ∧ example_url = Sprintf_s (HubURL tekton_hub) ["Tekton"; "task"; "git-clone"; "0.9"].
Proof.
  assert (EvGet example_url
            ∈ trace (@Resolve example_lib example_keys tekton_hub ctx_catalog
                       (hub_answering 404 "not found") full_request)) as Hin.
  { replace (trace _) with [EvGet example_url] by (vm_compute; reflexivity).
    apply elem_of_cons. by left. }
  split; [exact Hin|].
  destruct (@Resolve_requested_url example_lib example_keys tekton_hub ctx_catalog
    (hub_answering 404 "not found") full_request example_url Hin)
    as (c & k & Hc & Hk & _ & Hu).
  injection Hc as <-. injection Hk as <-. exact Hu.
Defined.

Lemma Resolve_transport_failure_witness :
  ∃ e, @Resolve example_lib example_keys tekton_hub ctx_catalog
         (unreachable_hub connection_refused) full_request
       = ([EvGet example_url], Err e)
       ∧ Unwrap e = Some connection_refused
       ∧ error_kind e = Some FetchError.
Proof.
  destruct (@Resolve_transport_failure example_lib example_keys tekton_hub
    ctx_catalog (unreachable_hub connection_refused) full_request
    merged_example connection_refused eq_refl merged_example_ok eq_refl)
    as (e & Hr & Hu & _ & Hk).
  rewrite merged_example_url in Hr. by exists e.
Defined.

Lemma Resolve_read_failure_witness :
  ∃ e, @Resolve example_lib example_keys tekton_hub ctx_catalog
         (unreadable_hub connection_refused) full_request
       = ([EvGet example_url; EvReadAll; EvClose], Err e)
       ∧ Unwrap e = Some connection_refused.
Proof.
  destruct (@Resolve_read_failure example_lib example_keys tekton_hub
    ctx_catalog (unreadable_hub connection_refused) full_request
    merged_example _ connection_refused eq_refl merged_example_ok eq_refl
    eq_refl eq_refl) as (e & Hr & Hu & _).
  rewrite merged_example_url in Hr. by exists e.
Defined.

Lemma Resolve_success_only_if_witness :
  enabled ctx_catalog = true
  ∧ ∃ m resp, @Resolve_params example_keys ctx_catalog full_request = Ok m
              ∧ answer (hub_answering 200 task_envelope)
                  (@hub_url example_lib tekton_hub m) = Ok resp
              ∧ StatusCode resp = StatusOK.
Proof.
  destruct (@Resolve_success_only_if example_lib example_keys tekton_hub
    ctx_catalog (hub_answering 200 task_envelope) full_request _ _
    full_request_resolves) as (Hon & m & resp & hr & Em & Ea & Hs & _).
  split; [exact Hon|]. by exists m, resp.
Defined.

Lemma Resolve_decode_cause_witness :
  json.parse (bytes_of_string "[1]") = Some (json.Array [json.Number "1"])
  ∧ @Resolve example_lib example_keys tekton_hub ctx_catalog
      (hub_answering 200 "[1]") full_request
    = ([EvGet example_url; EvReadAll; EvClose],
       Err (@Errorf_w example_lib "error unmarshalling json response: "
              (UnmarshalTypeError "array"))).
Proof.
  assert (json.parse (bytes_of_string "[1]") = Some (json.Array [json.Number "1"]))
    as Hp by (vm_compute; reflexivity).
  split; [exact Hp|].
  destruct (@Resolve_decode_cause example_lib example_keys tekton_hub ctx_catalog
    (hub_answering 200 "[1]") full_request merged_example _
    eq_refl merged_example_ok eq_refl eq_refl eq_refl) as (_ & _ & Htop).
  rewrite merged_example_url in Htop.
  apply (Htop _ Hp); [discriminate | intros members; discriminate].
Defined.

Lemma Resolve_closes_body_after_200_witness :
  trace (@Resolve example_lib example_keys tekton_hub ctx_catalog
           (unreadable_hub connection_refused) full_request)
  = [EvGet example_url; EvReadAll; EvClose].
Proof.
  rewrite <- merged_example_url.
  exact (@Resolve_closes_body_after_200 example_lib example_keys tekton_hub
    ctx_catalog (unreadable_hub connection_refused) full_request merged_example _
    eq_refl merged_example_ok eq_refl eq_refl).
Defined.

Lemma Resolve_plain_envelope_witness :
  plain "apiVersion: tekton.dev/v1beta1" = true
  ∧ @Resolve example_lib example_keys tekton_hub ctx_catalog
      (hub_answering 200 (envelope_text "apiVersion: tekton.dev/v1beta1"))
      full_request
    = ([EvGet example_url; EvReadAll; EvClose],
       Ok {| Content := bytes_of_string "apiVersion: tekton.dev/v1beta1" |}).
Proof.
  split; [reflexivity|]. rewrite <- merged_example_url.
  exact (@Resolve_plain_envelope example_lib example_keys tekton_hub ctx_catalog
    (hub_answering 200 (envelope_text "apiVersion: tekton.dev/v1beta1"))
    full_request merged_example _ "apiVersion: tekton.dev/v1beta1"
    eq_refl merged_example_ok eq_refl eq_refl eq_refl eq_refl).
Defined.

(* ===================================================================== *)
(** * What of the envelope counts *)
(* ===================================================================== *)

Lemma object_hubResponse_filter (members : list (string * json.Value))
  (cur : hubResponse) (saved : option error) :
  object_hubResponse (List.filter is_data_member members) cur saved
  = object_hubResponse members cur saved.
Proof.
  revert cur saved.
  induction members as [|[key v] members IH]; intros cur saved; [done|].
  simpl. unfold is_data_member at 1. simpl.
  destruct (json.equalFold "data" key) eqn:Ek; simpl.
  - rewrite Ek. destruct (value_dataResponse v (Data_ cur) saved). apply IH.
  - apply IH.
Qed.

(** X15.  Of the members of the object the hub sends, those named data
    (in any case of letters) are all that counts: a body without the
    other members is decoded to the same struct and the same error. *)
Theorem Unmarshal_ignores_other_members (body body' : list Byte.byte)
  (members : list (string * json.Value)) (hr : hubResponse) :
  json.parse body = Some (json.Object members) →
  json.parse body' = Some (json.Object (List.filter is_data_member members)) →
  Unmarshal body hr = Unmarshal body' hr.
Proof.
  intros Ep Ep'. unfold Unmarshal. rewrite Ep, Ep'. simpl.
  symmetry. apply object_hubResponse_filter.
Qed.

Lemma Unmarshal_ignores_other_members_witness :
  Unmarshal
    (bytes_of_string (dq "{'id':7,'data':{'yaml':'a'},'errors':[],'Data':{'yaml':3}}"))
    {| Data_ := {| YAML := EmptyString |} |}
  = Unmarshal
      (bytes_of_string (dq "{'data':{'yaml':'a'},'Data':{'yaml':3}}"))
      {| Data_ := {| YAML := EmptyString |} |}.
Proof.
  apply (Unmarshal_ignores_other_members _ _
    [("id", json.Number "7");
     ("data", json.Object [("yaml", json.Str "a")]);
     ("errors", json.Array []);
     ("Data", json.Object [("yaml", json.Number "3")])]);
    vm_compute; reflexivity.
Defined.

(* ===================================================================== *)
(** * The errors of Resolve *)
(* ===================================================================== *)

(** X16.  The errors [Resolve] can return are eight.  Four come before
    any action: the resolver is disabled, no default catalog, no default
    kind, a kind that is neither task nor pipeline.  Two come after the
    request alone: the wrapped cause of a failed request, and the text
    naming the URL for a status other than 200.  Two come after the
    body was read and closed: the wrapped cause of a failed reading and
    the wrapped cause of a failed decoding. *)
Theorem Resolve_errors `{GoLib} `{ConfigKeys} (r : Resolver) (ctx : Context)
  (net : Network) (params : list Param) (t : list event) (e : error) :
  Resolve r ctx net params = (t, Err e) →
  (t = []
   ∧ (e = errorString disabledError ∨ e = errorString msgDefaultCatalog
      ∨ e = errorString msgDefaultKind ∨ e = errorString msgKindParam))
  ∨ ∃ url,
      (t = [EvGet url]
       ∧ ((∃ cause, e = Errorf_w "error requesting resource from hub: " cause)
          ∨ e = errorString (msgNotFound url)))
      ∨ (t = [EvGet url; EvReadAll; EvClose]
         ∧ ∃ cause, e = Errorf_w "error reading response body: " cause
                    ∨ e = Errorf_w "error unmarshalling json response: " cause).
Proof.
  unfold Resolve. destruct (isDisabled r ctx).
  { intros [= <- <-]. left. auto. }
  rewrite Resolve_params_spec. cbv zeta.
  destruct (effective ParamCatalog _ _ _) as [c|].
  2:{ intros [= <- <-]. left. auto. }
  destruct (effective ParamKind _ _ _) as [k|].
  2:{ intros [= <- <-]. left. auto. }
  destruct (valid_kind k).
  2:{ intros [= <- <-]. left. auto 6. }
  intros Hres. right.
  set (m := <[ParamKind := k]> _) in Hres. exists (hub_url r m).
  destruct (Resolve_fetch_cases r net m)
    as [(cause & _ & E)|[(? & _ & _ & E)|[(? & cause & _ & _ & _ & E)
       |[(? & ? & cause & _ & _ & _ & _ & E)|(? & ? & _ & _ & _ & _ & E)]]]];
    rewrite E in Hres; try discriminate; injection Hres as <- <-.
  - left. split; [done|]. left. eauto.
  - left. split; [done|]. by right.
  - right. split; [done|]. eauto.
  - right. split; [done|]. eauto.
Qed.

Lemma Resolve_errors_witness :
  ∃ url, @Resolve example_lib example_keys tekton_hub ctx_catalog
           (hub_answering 200 "[1]") full_request
         = ([EvGet url; EvReadAll; EvClose],
            Err (@Errorf_w example_lib "error unmarshalling json response: "
                   (UnmarshalTypeError "array"))).
Proof.
  assert (@Resolve example_lib example_keys tekton_hub ctx_catalog
            (hub_answering 200 "[1]") full_request
          = ([EvGet example_url; EvReadAll; EvClose],
             Err (@Errorf_w example_lib "error unmarshalling json response: "
                    (UnmarshalTypeError "array")))) as Hr
    by (vm_compute; reflexivity).
  destruct (@Resolve_errors example_lib example_keys tekton_hub ctx_catalog
    (hub_answering 200 "[1]") full_request _ _ Hr)
    as [([=] & _)|(url & [([=] & _)|(Ht & _)])].
  exists url. rewrite Hr. by rewrite Ht.
Defined.
